(** * A transform benchmark: sequential, policy-based and fork-join strategies

    Shallow embedding of [main.cpp] and the properties of its data
    generator, its two operations, its five transform strategies and its
    reporting loop.

    Conventions of the embedding.
    - [double] is Rocq's primitive binary64 [float]; [std::sin] belongs to
      the C library and is a parameter of [slow_op].
    - [size_t] is a 64-bit unsigned integer: a [Z] reduced modulo [2^64]
      after every arithmetic operation; [int] is a [Z] in the 32-bit range.
    - [std::vector<double>] is a [list float]; an access outside the vector
      is undefined behaviour and makes the run [None].
    - The two vectors of a measurement live in a [store]; the worker
      threads and the execution policies perform element accesses on it
      in an order chosen by the environment.
    - The clock and the scheduler are oracles of an [environment]; the
      number of clock readings and the text printed so far form the
      [world] that is threaded through the harness.
    - A measured time is the [double] that the harness returns: the
      difference of two clock readings, converted and divided in
      binary64. Statements about the sign and the order of times go
      through the specification of binary64 ([Prim2SF], [SFltb], ...).
    - Allocating a vector and creating a thread always succeed. *)

From Stdlib Require Import ZArith Floats Lia.
From stdpp Require Import base option list strings.

Local Open Scope Z_scope.

(** ** Machine integers *)

Definition INT_MIN : Z := - 2 ^ 31.
Definition INT_MAX : Z := 2 ^ 31 - 1.
Definition SIZE_MODULUS : Z := 2 ^ 64.

(** Arithmetic on [size_t] wraps around. *)
Definition size_t_wrap (z : Z) : Z := z mod SIZE_MODULUS.

(** The usual arithmetic conversion of an [int] that meets a [size_t]
    operand (in [N / K], [N % K] and [i < remainder]). *)
Definition size_of_int (k : Z) : Z := k mod SIZE_MODULUS.

(** Subtraction of two [int64_t] tick counts, in two's complement. *)
Definition sint64_wrap (z : Z) : Z := (z + 2 ^ 63) mod 2 ^ 64 - 2 ^ 63.

Definition is_int (k : Z) : Prop := INT_MIN <= k <= INT_MAX.

(** [data.size()] as a [size_t]. *)
Definition vec_size {A} (v : list A) : Z := Z.of_nat (length v).

(** Every vector has a size that fits [size_t]. *)
Definition vector_size_ok {A} (v : list A) : Prop := vec_size v < SIZE_MODULUS.

(** ** Counted loops

    [for (int i = lo; i < hi; ++i) body] where the body changes neither
    [i] nor [hi]: the body runs for [i = lo, lo+1, ..., hi-1]. *)

Fixpoint for_range {S : Type} (trips : nat) (i : Z) (body : Z -> S -> S) (s : S) : S :=
  match trips with
  | O => s
  | Datatypes.S trips' => for_range trips' (i + 1) body (body i s)
  end.

Definition for_loop {S : Type} (lo hi : Z) (body : Z -> S -> S) (s : S) : S :=
  for_range (Z.to_nat (hi - lo)) lo body s.

(** ** Operations *)

Definition double := float.

(** [static_cast<double>(i)] for an [int]. *)
Definition double_of_int (i : Z) : double :=
  if 0 <=? i then PrimFloat.of_uint63 (Uint63.of_Z i)
  else PrimFloat.opp (PrimFloat.of_uint63 (Uint63.of_Z (- i))).

Definition fast_op (x : double) : double := (x + 1)%float.

(** The frame of [slow_op]: the running sum [s], and the arguments that
    were passed to [std::sin] so far (a ghost trace of the work done). *)
Record slow_frame := { s : double; sin_args : list double }.

Section SlowOp.
Variable sin : double -> double.

Definition slow_body (i : Z) (fr : slow_frame) : slow_frame :=
  {| s := (s fr + sin (double_of_int i))%float;
     sin_args := sin_args fr ++ [double_of_int i] |}.

Definition slow_op_run (x : double) : double * list double :=
  let fr := for_loop 0 100 slow_body {| s := 0%float; sin_args := [] |} in
  ((s fr + x)%float, sin_args fr).

Definition slow_op (x : double) : double := fst (slow_op_run x).

(** The operation as the specification words it: the sum of the sines
    of the integers 0..99 (accumulated from 0.0 in increasing order),
    plus the input. *)
Definition sine_sum_0_99 : double :=
  foldl (fun acc i => (acc + sin (double_of_int (Z.of_nat i)))%float)
        0%float (seq 0 100).

Definition slow_op_spec (x : double) : double := (sine_sum_0_99 + x)%float.
End SlowOp.

(** ** The two vectors of a measurement *)

Record store := { sample : list double; result : list double }.

(** [std::vector<double> result(data.size())]: a new vector of zeros. *)
Definition allocate_result (data : list double) : store :=
  {| sample := data; result := replicate (length data) 0%float |}.

(** One element access of [std::transform]: read the sample at offset
    [src], apply the operation, write the result at offset [dst]. *)
Definition access : Type := nat * nat.

Definition transform_elem (op : double -> double) (a : access) (st : store) : option store :=
  x ← sample st !! a.1;
  if decide (a.2 < length (result st))%nat
  then Some {| sample := sample st; result := <[a.2 := op x]> (result st) |}
  else None.

Fixpoint run_accesses (op : double -> double) (l : list access) (st : store) : option store :=
  match l with
  | [] => Some st
  | a :: l' => st' ← transform_elem op a st; run_accesses op l' st'
  end.

(** The accesses of [std::transform(first, last, d_first, op)] where
    [first] and [last] are offsets into the sample and [d_first] an
    offset into the result; [last] before [first] is not a valid range. *)
Definition transform_accesses (first last d_first : Z) : option (list access) :=
  if decide (0 <= first <= last /\ 0 <= d_first)
  then Some ((fun k => (Z.to_nat first + k, Z.to_nat d_first + k)%nat)
               <$> seq 0 (Z.to_nat (last - first)))
  else None.

(** The overload without a policy works from [first] to [last]. *)
Definition transform (op : double -> double) (first last d_first : Z) (st : store) : option store :=
  l ← transform_accesses first last d_first;
  run_accesses op l st.

(** ** Orders chosen by the environment

    [interleave sched pending]: [pending] holds, for every worker, the
    accesses it still has to do, in its program order; each entry of
    [sched] names the worker that takes the next step (an entry that
    names no worker, or one that has finished, changes nothing). When
    the decisions run out, the remaining work is completed worker by
    worker, which is what joining them amounts to. *)
Fixpoint interleave {A} (sched : list nat) (pending : list (list A)) : list A :=
  match sched with
  | [] => concat pending
  | t :: sched' =>
      match pending !! t with
      | Some (a :: rest) => a :: interleave sched' (<[t := rest]> pending)
      | _ => interleave sched' pending
      end
  end.

(** An order in which the elements of [l] may be taken one at a time:
    every element is a unit of work of its own. *)
Definition reorder {A} (choices : list nat) (l : list A) : list A :=
  interleave choices ((fun a => [a]) <$> l).

(** ** Execution policies *)

Inductive policy := seq_policy | par_policy | par_unseq_policy.

(** [std::transform(policy, first, last, d_first, op)]. With [seq] the
    elements are processed by the calling thread in order; with [par]
    and [par_unseq] the library may process them in any order. *)
Definition transform_with_policy (pol : policy) (choices : list nat)
    (op : double -> double) (first last d_first : Z) (st : store) : option store :=
  l ← transform_accesses first last d_first;
  match pol with
  | seq_policy => run_accesses op l st
  | par_policy | par_unseq_policy => run_accesses op (reorder choices l) st
  end.

(** ** Environment and world *)

Record environment := {
  clock : nat -> Z;            (* n-th reading of high_resolution_clock::now(), in ticks *)
  scheduler : nat -> list nat  (* decisions taken in the region that starts after n readings *)
}.

(** What is printed, line by line; the layout of a line and the quotient
    at the end of the last line are left out. *)
Inductive out_line :=
| TableHeader
| TableRow (K : Z) (time : double)
| BestLine (best_K : Z)
| RelationLine (best_K : Z) (num_cores : Z).

Record world := { clock_reads : nat; stdout : list out_line }.

Definition now (env : environment) (w : world) : Z * world :=
  (clock env (clock_reads w),
   {| clock_reads := Datatypes.S (clock_reads w); stdout := stdout w |}).

Definition print (l : out_line) (w : world) : world :=
  {| clock_reads := clock_reads w; stdout := stdout w ++ [l] |}.

(** [static_cast<double>] of an [int64_t] tick count. *)
Definition double_of_int64 (d : Z) : double :=
  if d =? - 2 ^ 63 then (-0x1p+63)%float else double_of_int d.

(** [std::chrono::duration<double>(end - start).count()]: the difference
    of the two time points is an [int64_t] number of ticks (nanoseconds);
    it is converted to [double] and divided by [1e9]. *)
Definition duration_seconds (start end_ : Z) : double :=
  (double_of_int64 (sint64_wrap (end_ - start)) / 1000000000)%float.

(** ** Timing harness and strategy runners *)

(** A worker thread of the custom strategy: the captured copies of
    [current_start] and [current_end]. *)
Record task := { chunk_begin : Z; chunk_end : Z }.

(** What a measurement leaves behind: the returned number of seconds and,
    for the statements about the vectors, the store and the threads as
    they are when the function returns. *)
Record measurement := { seconds : double; final : store; workers : list task }.

Definition measure_transform (env : environment) (data : list double)
    (op : double -> double) (w : world) : option (measurement * world) :=
  let mem := allocate_result data in
  let '(start, w) := now env w in
  mem ← transform op 0 (vec_size data) 0 mem;
  let '(end_, w) := now env w in
  Some ({| seconds := duration_seconds start end_; final := mem; workers := [] |}, w).

Definition measure_policy_transform (env : environment) (data : list double)
    (op : double -> double) (pol : policy) (w : world) : option (measurement * world) :=
  let mem := allocate_result data in
  let '(start, w) := now env w in
  mem ← transform_with_policy pol (scheduler env (clock_reads w)) op
          0 (vec_size data) 0 mem;
  let '(end_, w) := now env w in
  Some ({| seconds := duration_seconds start end_; final := mem; workers := [] |}, w).

(** The frame of the spawning loop. *)
Record spawn_frame := { current_start : Z; threads : list task }.

Definition spawn_body (chunk_size remainder : Z) (i : Z) (fr : spawn_frame) : spawn_frame :=
  let current_end :=
    size_t_wrap (size_t_wrap (current_start fr + chunk_size)
                 + (if size_of_int i <? remainder then 1 else 0)) in
  {| current_start := current_end;
     threads := threads fr ++ [{| chunk_begin := current_start fr; chunk_end := current_end |}] |}.

(** The threads created for a vector of [N] elements and [K] workers. *)
Definition spawn_threads (N K : Z) : list task :=
  let chunk_size := N / size_of_int K in
  let remainder := N mod size_of_int K in
  threads (for_loop 0 K (spawn_body chunk_size remainder)
                    {| current_start := 0; threads := [] |}).

(** The body of a worker: [std::transform] from [data.cbegin() + current_start]
    to [data.cbegin() + current_end] into [result.begin() + current_start]. *)
Definition task_accesses (t : task) : option (list access) :=
  transform_accesses (chunk_begin t) (chunk_end t) (chunk_begin t).

Definition chunk_len (t : task) : Z := chunk_end t - chunk_begin t.

Definition clamp_threads (K : Z) : Z := if K <=? 0 then 1 else K.

Definition measure_custom_parallel_transform (env : environment) (data : list double)
    (op : double -> double) (K : Z) (w : world) : option (measurement * world) :=
  let K := clamp_threads K in
  let N := vec_size data in
  let mem := allocate_result data in
  let '(start, w) := now env w in
  let threads := spawn_threads N K in
  work ← mapM task_accesses threads;
  mem ← run_accesses op (interleave (scheduler env (clock_reads w)) work) mem;
  let '(end_, w) := now env w in
  Some ({| seconds := duration_seconds start end_; final := mem; workers := threads |}, w).

(** The five strategies that [run_and_print_all_transforms] measures. *)
Inductive strategy :=
| no_policy
| with_policy (pol : policy)
| custom_parallel (K : Z).

Definition measure (env : environment) (st : strategy) (data : list double)
    (op : double -> double) (w : world) : option (measurement * world) :=
  match st with
  | no_policy => measure_transform env data op w
  | with_policy pol => measure_policy_transform env data op pol w
  | custom_parallel K => measure_custom_parallel_transform env data op K w
  end.

(** ** Reporting *)

(** [std::numeric_limits<double>::max()]. *)
Definition DBL_MAX : double := 0x1.fffffffffffffp+1023%float.

Record sweep_frame := { min_time : double; best_K : Z }.

(** [if (time_custom < min_time) { min_time = time_custom; best_K = K; }] *)
Definition update_best (K : Z) (time_custom : double) (fr : sweep_frame) : sweep_frame :=
  if (time_custom <? min_time fr)%float
  then {| min_time := time_custom; best_K := K |}
  else fr.

(** The loop over [K_values]. *)
Fixpoint sweep (env : environment) (data : list double) (op : double -> double)
    (K_values : list Z) (fr : sweep_frame) (w : world) : option (sweep_frame * world) :=
  match K_values with
  | [] => Some (fr, w)
  | K :: rest =>
      '(m, w) ← measure_custom_parallel_transform env data op K w;
      let time_custom := seconds m in
      let w := print (TableRow K time_custom) w in
      sweep env data op rest (update_best K time_custom fr) w
  end.

Definition measure_and_print_custom_parallel (env : environment) (data : list double)
    (op : double -> double) (K_values : list Z) (num_cores : Z) (w : world) : option world :=
  let w := print TableHeader w in
  '(fr, w) ← sweep env data op K_values {| min_time := DBL_MAX; best_K := 1 |} w;
  let w := print (BestLine (best_K fr)) w in
  let w := print (RelationLine (best_K fr) num_cores) w in
  Some w.

(** ** Data generator

    [std::mt19937] and [std::uniform_real_distribution] belong to the
    standard library: the engine state, its seeding constructor and the
    draw of one value (which advances the engine) are parameters. *)

Section Generator.
Variable engine : Type.
Variable mt19937 : Z -> engine.
Variable uniform_real : double -> double -> engine -> double * engine.

Record fill_frame := { gen : engine; data : list double }.

(** [x = dis(gen)] for the element [x] at position [i]. *)
Definition fill_body (dis_start dis_end : double) (i : Z) (fr : fill_frame) : fill_frame :=
  let '(x, g) := uniform_real dis_start dis_end (gen fr) in
  {| gen := g; data := <[Z.to_nat i := x]> (data fr) |}.

Definition generate_data (N : Z) (seed : Z) (dis_start dis_end : double) : list double :=
  let zeros := replicate (Z.to_nat N) 0%float in
  data (for_loop 0 (vec_size zeros) (fill_body dis_start dis_end)
                 {| gen := mt19937 seed; data := zeros |}).

(** The engine after [i] draws, and the [i]-th value drawn. *)
Fixpoint engine_after (dis_start dis_end : double) (i : nat) (g : engine) : engine :=
  match i with
  | O => g
  | Datatypes.S i' => (uniform_real dis_start dis_end (engine_after dis_start dis_end i' g)).2
  end.

Definition draw (dis_start dis_end : double) (seed : Z) (i : nat) : double :=
  (uniform_real dis_start dis_end (engine_after dis_start dis_end i (mt19937 seed))).1.
End Generator.

(** ** Closed forms used in the statements *)

(** Where chunk [i] starts when [N] elements are split among [K] workers. *)
Definition chunk_start (N K i : Z) : Z := i * (N / K) + Z.min i (N mod K).

Definition chunk (N K i : Z) : task :=
  {| chunk_begin := chunk_start N K i; chunk_end := chunk_start N K (i + 1) |}.

Definition sum_Z (l : list Z) : Z := foldr Z.add 0 l.

(** The times that a sweep over [n] candidates measures when it starts
    after [r] readings of the clock: two readings per candidate. *)
Definition sweep_times (env : environment) (r n : nat) : list double :=
  (fun i => duration_seconds (clock env (r + 2 * i)%nat) (clock env (r + 2 * i + 1)%nat))
    <$> seq 0 n.

Definition valid_strategy (st : strategy) : Prop :=
  match st with
  | custom_parallel K => 1 <= K <= INT_MAX
  | _ => True
  end.

Definition int_strategy (st : strategy) : Prop :=
  match st with
  | custom_parallel K => is_int K
  | _ => True
  end.

(** The world after one more measurement. *)
Definition after_measurement (w : world) : world :=
  {| clock_reads := Datatypes.S (Datatypes.S (clock_reads w)); stdout := stdout w |}.

Definition measured (env : environment) (w : world) : double :=
  duration_seconds (clock env (clock_reads w)) (clock env (Datatypes.S (clock_reads w))).

(** An access that reads and writes the same offset, inside a vector of
    [n] elements. *)
Definition diagonal (n : nat) (a : access) : Prop := a.1 = a.2 /\ (a.1 < n)%nat.

Definition same_offset (j : nat) : access := (j, j).

(** The work of the workers covers the vector, chunk after chunk. *)
Definition chunk_work (t : task) : list access :=
  same_offset <$> seq (Z.to_nat (chunk_begin t)) (Z.to_nat (chunk_len t)).

Definition transformed (data : list double) (op : double -> double) : store :=
  {| sample := data; result := op <$> data |}.

Definition track (fr : sweep_frame) (kts : list (Z * double)) : sweep_frame :=
  foldl (fun fr kt => update_best kt.1 kt.2 fr) fr kts.

Definition first_frame : sweep_frame := {| min_time := DBL_MAX; best_K := 1 |}.

(** The times of a sweep that starts in world [w], and the candidate it
    reports. *)
Definition sweep_best_times (env : environment) (w : world) (K_values : list Z) : list double :=
  sweep_times env (clock_reads w) (length K_values).

Definition sweep_best (env : environment) (w : world) (K_values : list Z) : Z :=
  best_K (track first_frame (zip K_values (sweep_best_times env w K_values))).

(** ** Binary64 numbers: sign, size and order

    Predicates on the specification of binary64 values ([spec_float])
    that the statements about measured times use. *)

(** Zero or above (not NaN). *)
Definition nonneg_sf (x : spec_float) : Prop :=
  match x with
  | S754_nan => False
  | S754_zero _ => True
  | S754_infinity sx | S754_finite sx _ _ => sx = false
  end.

(** A mantissa and an exponent whose value stays below [2^B]. *)
Definition below (B m e : Z) : Prop := 0 <= m /\ Zdigits2 m + e <= B /\ e <= B.

(** A zero, or a finite number of magnitude below [2^B]. *)
Definition small_sf (B : Z) (x : spec_float) : Prop :=
  match x with
  | S754_zero _ => True
  | S754_finite _ m e => Zdigits2 (Z.pos m) + e <= B /\ e <= B
  | _ => False
  end.

(** Every number (not NaN) has a rank; comparing two numbers is
    comparing their ranks lexicographically. *)
Definition sf_rank (x : spec_float) : Z * Z * Z :=
  match x with
  | S754_nan => (0, 0, 0)
  | S754_zero _ => (0, 0, 0)
  | S754_infinity false => (2, 0, 0)
  | S754_infinity true => (-2, 0, 0)
  | S754_finite false m e => (1, e, Z.pos m)
  | S754_finite true m e => (-1, - e, Z.neg m)
  end.

Definition rank_compare (a b : Z * Z * Z) : comparison :=
  match a.1.1 ?= b.1.1 with
  | Eq => match a.1.2 ?= b.1.2 with
          | Eq => a.2 ?= b.2
          | c => c
          end
  | c => c
  end.

Definition sf_number (x : spec_float) : Prop := x <> S754_nan.

Definition number (x : double) : Prop := sf_number (Prim2SF x).

Definition rank (x : double) : Z * Z * Z := sf_rank (Prim2SF x).

(** ** Concrete inputs for the examples *)

Definition demo_env : environment :=
  {| clock := fun n => 1000 * Z.of_nat n; scheduler := fun _ => [2; 0; 1; 1; 5; 0]%nat |}.

Definition demo_world : world := {| clock_reads := 0; stdout := [] |}.

Definition demo_data : list double := [0.5; 0.25; 1; 2; 3]%float.

Definition clock_set_back : environment :=
  {| clock := fun n => 5000 - 1000 * Z.of_nat n; scheduler := fun _ => [] |}.

Definition tie_env : environment :=
  {| clock := fun n => nth n [0; 3000; 3000; 5000; 5000; 7000] 0;
     scheduler := fun _ => [1; 0; 1]%nat |}.

(** A toy engine for the examples: the state is a counter, a draw returns
    it as a double and increments it. *)
Definition counter_seed (seed : Z) : Z := seed.

Definition counter_draw (dis_start dis_end : double) (g : Z) : double * Z :=
  (double_of_int g, g + 1).

(** ** The whole report

    What [run_and_print_all_transforms] and [main] print around the
    table of the custom strategy. *)
Inductive report_line :=
| CoresLine (num_cores : Z)
| DataSizeLine (size : Z)
| OperationLine (op_name : string)
| NoPolicyLine (time : double)
| SeqPolicyLine (time : double)
| ParPolicyLine (time : double)
| ParUnseqPolicyLine (time : double)
| CustomTitleLine
| CustomLine (l : out_line)
| SeparatorLine.

(** The state of the process: the clock readings taken and the lines
    printed since it started. *)
Record process := { reads : nat; printed : list report_line }.

(** The world that a harness function finds when it is called, and the
    process after it has returned. *)
Definition measuring (p : process) : world :=
  {| clock_reads := reads p; stdout := [] |}.

Definition resume (p : process) (w : world) : process :=
  {| reads := clock_reads w; printed := printed p ++ (CustomLine <$> stdout w) |}.

Definition say (l : report_line) (p : process) : process :=
  {| reads := reads p; printed := printed p ++ [l] |}.

Fixpoint run_and_print_all_transforms (env : environment) (data : list double)
    (ops : list (string * (double -> double))) (K_values : list Z) (num_cores : Z)
    (p : process) : option process :=
  match ops with
  | [] => Some p
  | (op_name, op) :: rest =>
      let p := say (OperationLine op_name) p in
      '(m, w) ← measure_transform env data op (measuring p);
      let time := seconds m in
      let p := say (NoPolicyLine time) (resume p w) in
      '(m, w) ← measure_policy_transform env data op seq_policy (measuring p);
      let time_seq_policy := seconds m in
      let p := say (SeqPolicyLine time_seq_policy) (resume p w) in
      '(m, w) ← measure_policy_transform env data op par_policy (measuring p);
      let time_par_policy := seconds m in
      let p := say (ParPolicyLine time_par_policy) (resume p w) in
      '(m, w) ← measure_policy_transform env data op par_unseq_policy (measuring p);
      let time_par_unseq_policy := seconds m in
      let p := say (ParUnseqPolicyLine time_par_unseq_policy) (resume p w) in
      let p := say CustomTitleLine p in
      w ← measure_and_print_custom_parallel env data op K_values num_cores (measuring p);
      let p := say SeparatorLine (resume p w) in
      run_and_print_all_transforms env data rest K_values num_cores p
  end.

(** [static_cast<double>(best_K) / num_cores], the quotient printed at
    the end of the relation line. *)
Definition relation_to_processor_threads (best_K num_cores : Z) : double :=
  (double_of_int best_K / double_of_int num_cores)%float.

(** [main]; [std::thread::hardware_concurrency()] is a parameter, like
    the engine and the sine. The result is the exit code and the
    process at exit. *)
Section Main.
Variable engine : Type.
Variable mt19937 : Z -> engine.
Variable uniform_real : double -> double -> engine -> double * engine.
Variable sin : double -> double.


Definition K_values : list Z := [1; 2; 4; 8; 16; 32].

Definition ops : list (string * (double -> double)) :=
  [("fast"%string, fast_op); ("slow"%string, slow_op sin)].


End Main.

(** ** Closed forms for the report *)

(** A harness function reads the clock twice: the [i]-th measurement
    after [r] readings returns this time. *)
Definition time_of (env : environment) (r i : nat) : double :=
  duration_seconds (clock env (r + 2 * i)%nat) (clock env (r + 2 * i + 1)%nat).

(** Clock readings per operation: four strategies and one measurement
    per candidate. *)
Definition reads_per_operation (K_values : list Z) : nat := 8 + 2 * length K_values.

(** The lines for one operation, when it starts after [r] readings. *)
Definition operation_report (env : environment) (r : nat) (op_name : string)
    (K_values : list Z) (num_cores : Z) : list report_line :=
  let w := {| clock_reads := r + 8; stdout := [] |} in
  let best := sweep_best env w K_values in
  [OperationLine op_name; NoPolicyLine (time_of env r 0); SeqPolicyLine (time_of env r 1);
   ParPolicyLine (time_of env r 2); ParUnseqPolicyLine (time_of env r 3); CustomTitleLine]
  ++ (CustomLine <$> ([TableHeader]
                      ++ zip_with TableRow K_values (sweep_best_times env w K_values)
                      ++ [BestLine best; RelationLine best num_cores]))
  ++ [SeparatorLine].

Fixpoint report (env : environment) (r : nat) (op_names : list string)
    (K_values : list Z) (num_cores : Z) : list report_line :=
  match op_names with
  | [] => []
  | op_name :: rest =>
      operation_report env r op_name K_values num_cores
      ++ report env (r + reads_per_operation K_values) rest K_values num_cores
  end.



Definition best_candidates (l : list report_line) : list Z :=
  omap (fun x => match x with CustomLine (BestLine k) => Some k | _ => None end) l.

(** ** main *)


(** A positive mantissa whose value is at least [2^(L-1)]. *)
Definition above (L m e : Z) : Prop := 0 < m /\ L <= Zdigits2 m + e.

(** An infinity or a finite number with sign [sx] and magnitude at
    least [2^(L-1)]: not a zero, not NaN. *)
Definition large_sf (L : Z) (sx : bool) (x : spec_float) : Prop :=
  match x with
  | S754_finite s m e => s = sx /\ L <= Zdigits2 (Z.pos m) + e
  | S754_infinity s => s = sx
  | _ => False
  end.

(** * Properties *)

(** ** The embedding on small inputs *)

Example fast_op_half : fast_op 0.5%float = 1.5%float.
Proof. reflexivity. Qed.

Example spawn_threads_10_3 :
  spawn_threads 10 3
  = [{| chunk_begin := 0; chunk_end := 4 |}; {| chunk_begin := 4; chunk_end := 7 |};
     {| chunk_begin := 7; chunk_end := 10 |}].
Proof. reflexivity. Qed.

(** More workers than elements: the last chunks are empty. *)
Example spawn_threads_2_4 :
  spawn_threads 2 4
  = [{| chunk_begin := 0; chunk_end := 1 |}; {| chunk_begin := 1; chunk_end := 2 |};
     {| chunk_begin := 2; chunk_end := 2 |}; {| chunk_begin := 2; chunk_end := 2 |}].
Proof. reflexivity. Qed.

Example interleave_three_workers :
  interleave [2; 0; 1; 1; 5; 0]%nat [[1; 2]; [3; 4; 5]; [6]] = [6; 1; 3; 4; 2; 5].
Proof. reflexivity. Qed.

Example custom_two_workers :
  measure_custom_parallel_transform demo_env demo_data fast_op 2 demo_world
  = Some ({| seconds := duration_seconds 0 1000;
             final := {| sample := demo_data;
                         result := [1.5; 1.25; 2; 3; 4]%float |};
             workers := [{| chunk_begin := 0; chunk_end := 3 |};
                         {| chunk_begin := 3; chunk_end := 5 |}] |},
          {| clock_reads := 2; stdout := [] |}).
Proof. by vm_compute. Qed.

(** A worker whose range leaves the vector stops the run. *)
Example transform_out_of_range :
  transform fast_op 3 6 3 (allocate_result demo_data) = None.
Proof. by vm_compute. Qed.

Example generate_data_counter :
  generate_data Z counter_seed counter_draw 4 42 0%float 1%float
  = [42; 43; 44; 45]%float.
Proof. by vm_compute. Qed.

(** ** Loops *)

Lemma for_range_inv {S : Type} (P : Z -> S -> Prop) (body : Z -> S -> S) n i0 s0 :
  P i0 s0 ->
  (forall i s, i0 <= i < i0 + Z.of_nat n -> P i s -> P (i + 1) (body i s)) ->
  P (i0 + Z.of_nat n) (for_range n i0 body s0).
Proof.
  revert i0 s0. induction n as [|n IH]; intros i0 s0 H0 Hstep.
  - simpl. by replace (i0 + Z.of_nat 0) with i0 by lia.
  - simpl for_range.
    replace (i0 + Z.of_nat (Datatypes.S n)) with ((i0 + 1) + Z.of_nat n) by lia.
    apply IH.
    + apply Hstep; [lia | done].
    + intros i s Hi. apply Hstep. lia.
Qed.

Lemma for_loop_inv {S : Type} (P : Z -> S -> Prop) (body : Z -> S -> S) lo hi s0 :
  lo <= hi ->
  P lo s0 ->
  (forall i s, lo <= i < hi -> P i s -> P (i + 1) (body i s)) ->
  P hi (for_loop lo hi body s0).
Proof.
  intros Hle H0 Hstep. unfold for_loop.
  replace hi with (lo + Z.of_nat (Z.to_nat (hi - lo))) at 1 by lia.
  apply for_range_inv; [done|].
  intros i s Hi. apply Hstep. lia.
Qed.

(** ** Chunk arithmetic *)

(** The facts about [N / K] and [N mod K] that [lia] needs. *)
Ltac div_mod_facts N K :=
  pose proof (Z.div_pos N K ltac:(lia) ltac:(lia));
  pose proof (Z.mod_pos_bound N K ltac:(lia));
  pose proof (Z.div_mod N K ltac:(lia)).

Section ChunkArith.
Variables N K : Z.
Hypothesis HN : 0 <= N.
Hypothesis HK : 1 <= K.

Lemma chunk_start_0 : chunk_start N K 0 = 0.
Proof. unfold chunk_start. div_mod_facts N K. lia. Qed.

Lemma chunk_start_K : chunk_start N K K = N.
Proof. unfold chunk_start. div_mod_facts N K. lia. Qed.

Lemma chunk_start_succ i :
  chunk_start N K (i + 1)
  = chunk_start N K i + N / K + (if i <? N mod K then 1 else 0).
Proof. unfold chunk_start. destruct (Z.ltb_spec i (N mod K)); lia. Qed.

Lemma chunk_start_mono i : chunk_start N K i <= chunk_start N K (i + 1).
Proof.
  rewrite chunk_start_succ. div_mod_facts N K.
  destruct (i <? N mod K); lia.
Qed.

Lemma chunk_start_nonneg i : 0 <= i -> 0 <= chunk_start N K i.
Proof.
  intros Hi. unfold chunk_start. div_mod_facts N K.
  pose proof (Z.mul_nonneg_nonneg i (N / K) ltac:(lia) ltac:(lia)). lia.
Qed.

Lemma chunk_start_le_N i : i <= K -> chunk_start N K i <= N.
Proof.
  intros Hi. unfold chunk_start. div_mod_facts N K.
  pose proof (Z.mul_le_mono_nonneg_r i K (N / K) ltac:(lia) ltac:(lia)). lia.
Qed.
End ChunkArith.

Lemma size_t_wrap_small z : 0 <= z < SIZE_MODULUS -> size_t_wrap z = z.
Proof. intros. unfold size_t_wrap. by apply Z.mod_small. Qed.

Lemma size_of_int_small z : 0 <= z < SIZE_MODULUS -> size_of_int z = z.
Proof. intros. unfold size_of_int. by apply Z.mod_small. Qed.

Lemma INT_MAX_lt_SIZE_MODULUS : INT_MAX < SIZE_MODULUS.
Proof. reflexivity. Qed.

Lemma spawn_threads_closed N K :
  0 <= N < SIZE_MODULUS -> 1 <= K <= INT_MAX ->
  spawn_threads N K = chunk N K <$> seqZ 0 K.
Proof.
  intros HN HK. pose proof INT_MAX_lt_SIZE_MODULUS as HM.
  unfold spawn_threads. rewrite (size_of_int_small K) by lia.
  set (P := fun (i : Z) (fr : spawn_frame) =>
              current_start fr = chunk_start N K i
              /\ threads fr = chunk N K <$> seqZ 0 i).
  enough (P K (for_loop 0 K (spawn_body (N / K) (N mod K))
                 {| current_start := 0; threads := [] |})) as [_ H] by done.
  apply for_loop_inv; [lia | |].
  - split; simpl; [by rewrite chunk_start_0 by lia | done].
  - intros i fr Hi [Hcs Hth]. unfold spawn_body.
    rewrite (size_of_int_small i) by lia.
    pose proof (chunk_start_succ N K i) as Hs.
    pose proof (chunk_start_nonneg N K ltac:(lia) ltac:(lia) i ltac:(lia)).
    pose proof (chunk_start_le_N N K ltac:(lia) ltac:(lia) (i + 1) ltac:(lia)).
    pose proof (Z.div_pos N K ltac:(lia) ltac:(lia)).
    assert (size_t_wrap (size_t_wrap (current_start fr + N / K)
                         + (if i <? N mod K then 1 else 0))
            = chunk_start N K (i + 1)) as ->.
    { rewrite Hcs. rewrite (size_t_wrap_small (_ + N / K));
        [rewrite size_t_wrap_small|]; destruct (i <? N mod K); lia. }
    split; simpl; [done|].
    rewrite Hth, Hcs. rewrite (seqZ_app 0 i 1) by lia.
    rewrite fmap_app. f_equal.
Qed.

(** ** Element accesses *)



Lemma run_accesses_diagonal op l st :
  length (result st) = length (sample st) ->
  Forall (diagonal (length (sample st))) l ->
  exists out,
    run_accesses op l st = Some {| sample := sample st; result := out |}
    /\ length out = length (sample st)
    /\ forall j, out !! j = if decide (j ∈ l.*1) then op <$> sample st !! j
                           else result st !! j.
Proof.
  revert st. induction l as [|[j j'] l IH]; intros st Hlen Hall.
  - exists (result st). destruct st. simpl in *. done.
  - apply Forall_cons in Hall as [[Hjj Hj] Hall]. simpl in Hjj, Hj. subst j'.
    destruct (lookup_lt_is_Some_2 (sample st) j Hj) as [x Hx].
    destruct (IH {| sample := sample st; result := <[j := op x]> (result st) |})
      as (out & Hrun & Hlo & Hout); [by simpl; rewrite length_insert | done |].
    simpl in Hrun, Hlo, Hout.
    exists out. split_and!; [|done|].
    + cbn [run_accesses]. unfold transform_elem. cbn [fst snd].
      rewrite Hx. cbn [mbind option_bind]. rewrite decide_True by lia. exact Hrun.
    + intros i. rewrite Hout, fmap_cons. cbn [fst].
      destruct (decide (i = j)) as [->|Hne].
      * rewrite (decide_True (P := j ∈ j :: l.*1)) by (apply elem_of_cons; by left).
        rewrite list_lookup_insert_eq by lia. rewrite Hx.
        by case_decide.
      * rewrite list_lookup_insert_ne by done.
        case_decide as Hi.
        -- by rewrite decide_True by (apply elem_of_cons; by right).
        -- rewrite decide_False; [done|].
           intros [?|?]%elem_of_cons; done.
Qed.

(** Whatever the order, accesses that cover every offset exactly write
    the image of the sample. *)
Lemma run_accesses_cover op l data :
  l ≡ₚ same_offset <$> seq 0 (length data) ->
  run_accesses op l (allocate_result data)
  = Some {| sample := data; result := op <$> data |}.
Proof.
  intros Hperm.
  assert (l.*1 ≡ₚ seq 0 (length data)) as Hfst.
  { rewrite Hperm, <- list_fmap_compose.
    change (fst ∘ same_offset) with (@id nat). by rewrite list_fmap_id. }
  destruct (run_accesses_diagonal op l (allocate_result data)) as (out & Hrun & Hlen & Hout).
  { simpl. by rewrite length_replicate. }
  { simpl. rewrite Hperm. apply Forall_fmap, Forall_forall.
    intros j Hj%elem_of_seq. split; simpl; lia. }
  rewrite Hrun. simpl. do 2 f_equal. simpl in *.
  apply list_eq. intros j. rewrite Hout, list_lookup_fmap.
  case_decide as Hj; [done|].
  rewrite Hfst, elem_of_seq in Hj.
  rewrite !(lookup_ge_None_2 _ j); [done| lia | rewrite length_replicate; lia].
Qed.

(** ** Interleavings are permutations of the work *)

Lemma concat_insert_tail {A} (pending : list (list A)) t a rest :
  pending !! t = Some (a :: rest) ->
  concat pending ≡ₚ a :: concat (<[t := rest]> pending).
Proof.
  revert t. induction pending as [|p pending IH]; intros [|t] Ht; simplify_eq/=.
  - done.
  - rewrite (IH _ Ht). by rewrite Permutation_middle.
Qed.

Lemma interleave_perm {A} (sched : list nat) (pending : list (list A)) :
  interleave sched pending ≡ₚ concat pending.
Proof.
  revert pending. induction sched as [|t sched IH]; intros pending; simpl; [done|].
  destruct (pending !! t) as [[|a rest]|] eqn:Ht; [done| |done].
  rewrite IH. symmetry. by apply concat_insert_tail.
Qed.

Lemma reorder_perm {A} (choices : list nat) (l : list A) : reorder choices l ≡ₚ l.
Proof.
  unfold reorder. rewrite interleave_perm.
  induction l as [|a l IH]; simpl; [done|]. by rewrite IH.
Qed.

(** ** The accesses of a transform call *)

Lemma transform_accesses_same first last :
  0 <= first <= last ->
  transform_accesses first last first
  = Some (same_offset <$> seq (Z.to_nat first) (Z.to_nat (last - first))).
Proof.
  intros H. unfold transform_accesses. rewrite decide_True by lia. f_equal.
  replace (seq (Z.to_nat first) (Z.to_nat (last - first)))
    with (Nat.add (Z.to_nat first) <$> seq 0 (Z.to_nat (last - first)))
    by (rewrite fmap_add_seq; f_equal; lia).
  by rewrite <- list_fmap_compose.
Qed.

Lemma transform_accesses_whole {A} (data : list A) :
  transform_accesses 0 (vec_size data) 0 = Some (same_offset <$> seq 0 (length data)).
Proof.
  unfold vec_size. rewrite transform_accesses_same by lia.
  by rewrite Z.sub_0_r, Nat2Z.id.
Qed.


Lemma mapM_Some_fmap {A B} (f : A -> option B) (g : A -> B) (l : list A) :
  Forall (fun x => f x = Some (g x)) l -> mapM f l = Some (g <$> l).
Proof.
  intros H. apply mapM_Some. induction H; simpl; constructor; done.
Qed.

Lemma chunk_work_concat N K (k : nat) :
  0 <= N -> 1 <= K -> Z.of_nat k <= K ->
  concat (chunk_work <$> (chunk N K <$> seqZ 0 (Z.of_nat k)))
  = same_offset <$> seq 0 (Z.to_nat (chunk_start N K (Z.of_nat k))).
Proof.
  intros HN HK. induction k as [|k IH]; intros Hk.
  - simpl. by rewrite chunk_start_0 by lia.
  - rewrite seqZ_S, !fmap_app, concat_app, IH by lia. simpl.
    rewrite app_nil_r. unfold chunk_work, chunk_len. simpl.
    rewrite <- fmap_app, <- seq_app. do 2 f_equal.
    replace (Z.of_nat (Datatypes.S k)) with (Z.of_nat k + 1) by lia.
    pose proof (chunk_start_mono N K HN HK (Z.of_nat k)).
    pose proof (chunk_start_nonneg N K HN HK (Z.of_nat k) ltac:(lia)).
    rewrite !Z.add_0_l. lia.
Qed.

Lemma spawn_threads_work N K :
  0 <= N < SIZE_MODULUS -> 1 <= K <= INT_MAX ->
  exists work,
    mapM task_accesses (spawn_threads N K) = Some work
    /\ concat work = same_offset <$> seq 0 (Z.to_nat N).
Proof.
  intros HN HK. rewrite spawn_threads_closed by done.
  exists (chunk_work <$> (chunk N K <$> seqZ 0 K)). split.
  - apply mapM_Some_fmap, Forall_fmap, Forall_seqZ. intros i Hi.
    simpl. unfold task_accesses, chunk_work, chunk_len. simpl.
    apply transform_accesses_same.
    pose proof (chunk_start_mono N K ltac:(lia) ltac:(lia) i).
    pose proof (chunk_start_nonneg N K ltac:(lia) ltac:(lia) i ltac:(lia)). lia.
  - pose proof (chunk_work_concat N K (Z.to_nat K)) as H.
    rewrite Z2Nat.id in H by lia.
    rewrite H by lia. by rewrite chunk_start_K by lia.
Qed.

(** No element is written by two workers: the accesses of the workers
    can be taken in any order without a data race. *)
Lemma workers_never_share_an_element N K :
  0 <= N < SIZE_MODULUS -> 1 <= K <= INT_MAX ->
  exists work,
    mapM task_accesses (spawn_threads N K) = Some work
    /\ NoDup (concat work).
Proof.
  intros HN HK. destruct (spawn_threads_work N K HN HK) as (work & Hwork & Hcat).
  exists work. split; [done|]. rewrite Hcat.
  apply NoDup_fmap_2; [|apply NoDup_seq].
  intros i j [= ->]. done.
Qed.

(** ** What each strategy computes *)


Lemma measure_transform_spec env data op w :
  measure_transform env data op w
  = Some ({| seconds := measured env w; final := transformed data op; workers := [] |},
          after_measurement w).
Proof.
  unfold measure_transform, transform. cbn [now].
  rewrite transform_accesses_whole. cbn [mbind option_bind].
  by rewrite run_accesses_cover.
Qed.

Lemma measure_policy_transform_spec env data op pol w :
  measure_policy_transform env data op pol w
  = Some ({| seconds := measured env w; final := transformed data op; workers := [] |},
          after_measurement w).
Proof.
  unfold measure_policy_transform, transform_with_policy. cbn [now].
  rewrite transform_accesses_whole. cbn [mbind option_bind].
  destruct pol; rewrite run_accesses_cover; try done; apply reorder_perm.
Qed.

Lemma clamp_threads_range K : is_int K -> 1 <= clamp_threads K <= INT_MAX.
Proof.
  unfold is_int, clamp_threads, INT_MIN, INT_MAX. intros H.
  destruct (Z.leb_spec K 0); lia.
Qed.

Lemma measure_custom_parallel_transform_spec env data op K w :
  vector_size_ok data -> is_int K ->
  measure_custom_parallel_transform env data op K w
  = Some ({| seconds := measured env w; final := transformed data op;
             workers := spawn_threads (vec_size data) (clamp_threads K) |},
          after_measurement w).
Proof.
  intros Hsize HK%clamp_threads_range.
  unfold measure_custom_parallel_transform. cbn [now].
  destruct (spawn_threads_work (vec_size data) (clamp_threads K)) as (work & -> & Hwork);
    [unfold vector_size_ok, vec_size in *; lia | done |].
  cbn [mbind option_bind]. rewrite run_accesses_cover; [done|].
  rewrite interleave_perm, Hwork. unfold vec_size. by rewrite Nat2Z.id.
Qed.

Lemma measure_spec env st data op w :
  vector_size_ok data -> int_strategy st ->
  exists m,
    measure env st data op w = Some (m, after_measurement w)
    /\ seconds m = measured env w
    /\ final m = transformed data op.
Proof.
  intros Hsize Hst. destruct st as [|pol|K]; simpl.
  - rewrite measure_transform_spec. eauto.
  - rewrite measure_policy_transform_spec. eauto.
  - rewrite measure_custom_parallel_transform_spec by done. eauto.
Qed.

Lemma valid_strategy_int st : valid_strategy st -> int_strategy st.
Proof. destruct st; simpl; unfold is_int, INT_MIN; lia. Qed.

(** ** Steps never touch the sample *)

Lemma transform_elem_frame op a st st' :
  transform_elem op a st = Some st' ->
  sample st' = sample st /\ length (result st') = length (result st).
Proof.
  unfold transform_elem. intros H.
  destruct (sample st !! a.1); simplify_eq/=.
  case_decide; simplify_eq/=. by rewrite length_insert.
Qed.

Lemma run_accesses_frame op l st st' :
  run_accesses op l st = Some st' ->
  sample st' = sample st /\ length (result st') = length (result st).
Proof.
  revert st. induction l as [|a l IH]; intros st H; simplify_eq/=; [done|].
  destruct (transform_elem op a st) as [st1|] eqn:H1; simplify_eq/=.
  apply transform_elem_frame in H1 as [<- <-]. by apply IH.
Qed.

(** ** Sums of chunk sizes *)

Lemma sum_Z_app l1 l2 : sum_Z (l1 ++ l2) = sum_Z l1 + sum_Z l2.
Proof. unfold sum_Z. induction l1 as [|x l1 IH]; simpl; lia. Qed.

Lemma chunk_len_sum N K (k : nat) :
  0 <= N -> 1 <= K ->
  sum_Z (chunk_len <$> (chunk N K <$> seqZ 0 (Z.of_nat k))) = chunk_start N K (Z.of_nat k).
Proof.
  intros HN HK. induction k as [|k IH].
  - simpl. by rewrite chunk_start_0.
  - rewrite seqZ_S, !fmap_app, sum_Z_app, IH. simpl. unfold chunk_len. simpl.
    rewrite Z.add_0_l. replace (Z.of_nat (Datatypes.S k)) with (Z.of_nat k + 1) by lia. lia.
Qed.

Lemma chunk_start_mono_le N K i j :
  0 <= N -> 1 <= K -> i <= j -> chunk_start N K i <= chunk_start N K j.
Proof.
  intros HN HK Hij. unfold chunk_start. div_mod_facts N K.
  pose proof (Z.mul_le_mono_nonneg_r i j (N / K) ltac:(lia) ltac:(lia)). lia.
Qed.

Lemma spawn_threads_lookup N K (i : nat) t :
  0 <= N < SIZE_MODULUS -> 1 <= K <= INT_MAX ->
  spawn_threads N K !! i = Some t <-> t = chunk N K (Z.of_nat i) /\ Z.of_nat i < K.
Proof.
  intros HN HK. rewrite spawn_threads_closed, list_lookup_fmap by done.
  destruct (seqZ 0 K !! i) as [z|] eqn:Hz; simpl.
  - apply lookup_seqZ in Hz as [-> Hz]. rewrite Z.add_0_l.
    split; [by intros [= <-] | by intros [-> _]].
  - split; [done|]. intros [_ Hlt]. by rewrite lookup_seqZ_lt in Hz.
Qed.

(** ** Generator and slow operation *)

Section GeneratorFacts.
Variable engine : Type.
Variable mt19937 : Z -> engine.
Variable uniform_real : double -> double -> engine -> double * engine.

Lemma generate_data_draws N seed a b :
  generate_data engine mt19937 uniform_real N seed a b
  = draw engine mt19937 uniform_real a b seed <$> seq 0 (Z.to_nat N).
Proof.
  unfold generate_data, vec_size. rewrite length_replicate.
  set (n := Z.to_nat N).
  set (P := fun (i : Z) (fr : fill_frame engine) =>
              gen engine fr = engine_after engine uniform_real a b (Z.to_nat i) (mt19937 seed)
              /\ data engine fr
                 = (draw engine mt19937 uniform_real a b seed <$> seq 0 (Z.to_nat i))
                   ++ replicate (n - Z.to_nat i) 0%float).
  enough (P (Z.of_nat n) (for_loop 0 (Z.of_nat n) (fill_body engine uniform_real a b)
               {| gen := mt19937 seed; data := replicate n 0%float |})) as [_ H].
  { rewrite H, Nat2Z.id, Nat.sub_diag. simpl. by rewrite app_nil_r. }
  apply for_loop_inv; [lia | |].
  - split; simpl; [done|]. by rewrite Nat.sub_0_r.
  - intros i fr Hi [Hg Hd]. unfold fill_body.
    destruct (uniform_real a b (gen engine fr)) as [x g] eqn:Hx.
    split; cbn [gen data];
      replace (Z.to_nat (i + 1)) with (Datatypes.S (Z.to_nat i)) by lia.
    + simpl. by rewrite <- Hg, Hx.
    + rewrite Hd, seq_S, fmap_app. simpl.
      replace (n - Z.to_nat i)%nat with (Datatypes.S (n - Datatypes.S (Z.to_nat i))) by lia.
      rewrite insert_app_r_alt by (rewrite length_fmap, length_seq; lia).
      rewrite length_fmap, length_seq, Nat.sub_diag. simpl.
      rewrite <- app_assoc. simpl. do 3 f_equal.
      unfold draw. by rewrite <- Hg, Hx.
Qed.
End GeneratorFacts.

Section SlowOpFacts.
Variable sin : double -> double.

Lemma slow_loop_closed :
  for_loop 0 100 (slow_body sin) {| s := 0%float; sin_args := [] |}
  = {| s := sine_sum_0_99 sin;
       sin_args := (fun i => double_of_int (Z.of_nat i)) <$> seq 0 100 |}.
Proof.
  set (P := fun (i : Z) (fr : slow_frame) =>
              s fr = foldl (fun acc k => (acc + sin (double_of_int (Z.of_nat k)))%float)
                           0%float (seq 0 (Z.to_nat i))
              /\ sin_args fr = (fun k => double_of_int (Z.of_nat k)) <$> seq 0 (Z.to_nat i)).
  enough (P 100 (for_loop 0 100 (slow_body sin) {| s := 0%float; sin_args := [] |}))
    as [H1 H2].
  { destruct (for_loop _ _ _ _). simpl in *. by subst. }
  apply for_loop_inv; [lia | done |].
  intros i fr Hi [Hs Ha]. unfold slow_body.
  split; cbn [s sin_args];
    replace (Z.to_nat (i + 1)) with (Datatypes.S (Z.to_nat i)) by lia;
    rewrite seq_S.
  + rewrite foldl_snoc, Hs. simpl. by rewrite Z2Nat.id by lia.
  + rewrite fmap_app, Ha. simpl. by rewrite Z2Nat.id by lia.
Qed.
End SlowOpFacts.

(** ** Binary64: signs, sizes and order of results *)

Module Binary64.

(** *** Signs *)

Lemma SFleb_zero_nonneg x : nonneg_sf x -> SFleb (S754_zero false) x = true.
Proof. destruct x as [| | |sx m e]; simpl; try done; by intros ->. Qed.

Lemma shr_1_nonneg mrs : 0 <= shr_m mrs -> 0 <= shr_m (shr_1 mrs).
Proof. destruct mrs as [[|[p|p|]|[p|p|]] r s0]; simpl; lia. Qed.

Lemma iter_pos_shr_1_nonneg p mrs :
  0 <= shr_m mrs -> 0 <= shr_m (SpecFloat.iter_pos shr_1 p mrs).
Proof.
  revert mrs. induction p as [p IH|p IH|]; intros mrs H; simpl.
  - by apply IH, IH, shr_1_nonneg.
  - by apply IH, IH.
  - by apply shr_1_nonneg.
Qed.

Lemma shr_fexp_nonneg m e l :
  0 <= m -> 0 <= shr_m (shr_fexp prec emax m e l).1.
Proof.
  intros Hm. unfold shr_fexp, shr.
  assert (shr_m (shr_record_of_loc m l) = m) as Hrec by (by destruct l as [|[]]).
  destruct (fexp prec emax (Zdigits2 m + e) - e) as [|p|p]; simpl; rewrite ?Hrec; try done.
  apply iter_pos_shr_1_nonneg. by rewrite Hrec.
Qed.

Lemma round_nearest_even_nonneg m l : 0 <= m -> 0 <= round_nearest_even m l.
Proof.
  intros Hm. destruct l as [|[]]; simpl; try done; [destruct (Z.even m)|]; lia.
Qed.

Lemma binary_round_aux_nonneg mx ex lx :
  0 <= mx -> nonneg_sf (binary_round_aux prec emax false mx ex lx).
Proof.
  intros Hm. unfold binary_round_aux.
  pose proof (shr_fexp_nonneg mx ex lx Hm) as H1.
  destruct (shr_fexp prec emax mx ex lx) as [mrs' e'].
  pose proof (shr_fexp_nonneg (round_nearest_even (shr_m mrs') (loc_of_shr_record mrs'))
                e' loc_Exact (round_nearest_even_nonneg _ _ H1)) as H2.
  destruct (shr_fexp prec emax _ e' loc_Exact) as [mrs'' e''].
  simpl in H2. destruct (shr_m mrs''); simpl; [done| |lia].
  by destruct (e'' <=? emax - prec).
Qed.

Lemma binary_normalize_nonneg m :
  0 <= m -> nonneg_sf (binary_normalize prec emax m 0 false).
Proof.
  intros Hm. destruct m as [|p|p]; simpl; [done| |lia].
  unfold binary_round. destruct (shl_align _ _ _) as [mz ez].
  by apply binary_round_aux_nonneg.
Qed.

Lemma SFdiv_nonneg x my ey :
  nonneg_sf x -> nonneg_sf (SF64div x (S754_finite false my ey)).
Proof.
  destruct x as [sx|sx| |sx mx ex]; simpl; try done.
  - intros ->. done.
  - intros ->. unfold SFdiv_core_binary.
    set (m' := match _ with Z0 => _ | Zpos _ => _ | Zneg _ => _ end).
    assert (0 <= m') as Hm'.
    { unfold m'. destruct (_ - _ - _) as [|p|p]; try done. by apply Z.shiftl_nonneg. }
    pose proof (Z_div_mod m' (Z.pos my) ltac:(lia)) as Hdiv.
    destruct (Z.div_eucl m' (Z.pos my)) as [q r]. destruct Hdiv as [Hq Hr].
    apply binary_round_aux_nonneg. nia.
Qed.

Lemma double_of_int_nonneg d : 0 <= d -> nonneg_sf (Prim2SF (double_of_int d)).
Proof.
  intros Hd. unfold double_of_int. rewrite (proj2 (Z.leb_le 0 d) Hd).
  rewrite of_uint63_spec. apply binary_normalize_nonneg.
  apply Uint63.to_Z_bounded.
Qed.

Lemma duration_seconds_nonneg a b :
  a <= b -> b - a < 2 ^ 63 -> (0 <=? duration_seconds a b)%float = true.
Proof.
  intros Hab Hr. unfold duration_seconds.
  rewrite leb_spec, div_spec.
  change (Prim2SF 0) with (S754_zero false).
  apply SFleb_zero_nonneg.
  assert (exists m e, Prim2SF 1000000000 = S754_finite false m e) as (m & e & ->)
    by (by eexists _, _; vm_compute).
  unfold double_of_int64, sint64_wrap. rewrite Z.mod_small by lia.
  rewrite (proj2 (Z.eqb_neq _ _)) by lia.
  apply SFdiv_nonneg, double_of_int_nonneg. lia.
Qed.

(** *** Sizes *)

Lemma digits2_pos_size p : digits2_pos p = Pos.size p.
Proof. induction p as [p IH|p IH|]; simpl; by rewrite ?IH. Qed.

Lemma Zdigits2_log2 m : 0 < m -> Zdigits2 m = Z.log2 m + 1.
Proof.
  destruct m as [|p|p]; try lia. intros _. simpl. rewrite digits2_pos_size.
  destruct p as [p|p|]; simpl; lia.
Qed.

Lemma Zdigits2_nonneg m : 0 <= Zdigits2 m.
Proof. destruct m; simpl; lia. Qed.

Lemma Zdigits2_mono a b : 0 <= a <= b -> Zdigits2 a <= Zdigits2 b.
Proof.
  intros [Ha Hab]. destruct (decide (a = 0)) as [->|Hne].
  - apply Zdigits2_nonneg.
  - rewrite !Zdigits2_log2 by lia. pose proof (Z.log2_le_mono a b Hab). lia.
Qed.

Lemma Zdigits2_succ m : 0 <= m -> Zdigits2 (m + 1) <= Zdigits2 m + 1.
Proof.
  intros Hm. destruct (decide (m = 0)) as [->|Hne]; [done|].
  rewrite !Zdigits2_log2 by lia. pose proof (Z.log2_succ_le m) as H.
  rewrite <- Z.add_1_r in H. lia.
Qed.

Lemma Zdigits2_shiftl m n : 0 < m -> 0 <= n -> Zdigits2 (Z.shiftl m n) = Zdigits2 m + n.
Proof.
  intros Hm Hn. pose proof (Z.shiftl_nonneg m n) as Hs.
  assert (0 < Z.shiftl m n).
  { rewrite Z.shiftl_mul_pow2 by done. pose proof (Z.pow_pos_nonneg 2 n); nia. }
  rewrite !Zdigits2_log2 by done. rewrite Z.log2_shiftl by done. lia.
Qed.

Lemma Zdigits2_shr_1 mrs :
  0 <= shr_m mrs -> Zdigits2 (shr_m (shr_1 mrs)) = Z.max 0 (Zdigits2 (shr_m mrs) - 1).
Proof. destruct mrs as [[|[p|p|]|p] r s0]; simpl; lia. Qed.

Lemma Zdigits2_iter_shr_1 p mrs :
  0 <= shr_m mrs ->
  Zdigits2 (shr_m (SpecFloat.iter_pos shr_1 p mrs)) = Z.max 0 (Zdigits2 (shr_m mrs) - Z.pos p).
Proof.
  revert mrs. induction p as [p IH|p IH|]; intros mrs H; simpl SpecFloat.iter_pos.
  - rewrite IH by (by apply iter_pos_shr_1_nonneg, shr_1_nonneg).
    rewrite IH by (by apply shr_1_nonneg). rewrite Zdigits2_shr_1 by done. lia.
  - rewrite IH by (by apply iter_pos_shr_1_nonneg). rewrite IH by done. lia.
  - by apply Zdigits2_shr_1.
Qed.

Lemma shr_fexp_below B m e l :
  SpecFloat.emin prec emax <= B -> below B m e ->
  below B (shr_m (shr_fexp prec emax m e l).1) (shr_fexp prec emax m e l).2.
Proof.
  intros HB (Hm & Hd & He). unfold shr_fexp, shr.
  assert (shr_m (shr_record_of_loc m l) = m) as Hrec by (by destruct l as [|[]]).
  destruct (fexp prec emax (Zdigits2 m + e) - e) as [|p|p] eqn:Hn; simpl;
    rewrite ?Hrec; try done.
  split_and!.
  - apply iter_pos_shr_1_nonneg. by rewrite Hrec.
  - rewrite Zdigits2_iter_shr_1, Hrec by (by rewrite Hrec).
    unfold fexp in Hn. pose proof (eq_refl : prec = 53). lia.
  - unfold fexp in Hn. pose proof (eq_refl : prec = 53). lia.
Qed.

Lemma round_nearest_even_below B m e l :
  below B m e -> below (B + 1) (round_nearest_even m l) e.
Proof.
  intros (Hm & Hd & He).
  assert (0 <= round_nearest_even m l <= m + 1) as [H1 H2].
  { destruct l as [|[]]; simpl; try lia. destruct (Z.even m); lia. }
  split_and!; [done| |lia].
  pose proof (Zdigits2_mono _ _ (conj H1 H2)). pose proof (Zdigits2_succ m Hm). lia.
Qed.

Lemma binary_round_aux_small B sx mx ex lx :
  SpecFloat.emin prec emax <= B -> B + 1 <= emax - prec -> below B mx ex ->
  small_sf (B + 1) (binary_round_aux prec emax sx mx ex lx).
Proof.
  intros HB1 HB2 H. unfold binary_round_aux.
  pose proof (shr_fexp_below B mx ex lx HB1 H) as H1.
  destruct (shr_fexp prec emax mx ex lx) as [mrs' e']. simpl in H1.
  apply (round_nearest_even_below _ _ _ (loc_of_shr_record mrs')) in H1.
  apply (shr_fexp_below (B + 1) _ _ loc_Exact ltac:(lia)) in H1.
  destruct (shr_fexp prec emax _ e' loc_Exact) as [mrs'' e'']. simpl in H1.
  destruct H1 as (Hm & Hd & He).
  destruct (shr_m mrs'') as [|p|p]; simpl; [done| |lia].
  rewrite (proj2 (Z.leb_le e'' (emax - prec))) by lia. done.
Qed.

Lemma small_sf_number B x : small_sf B x -> sf_number x.
Proof. by destruct x. Qed.

Lemma small_sf_opp B x : small_sf B x -> small_sf B (SFopp x).
Proof. by destruct x. Qed.

Lemma digits2_pos_iter_xO p d :
  Z.pos (digits2_pos (Pos.iter xO p d)) = Z.pos (digits2_pos p) + Z.pos d.
Proof.
  induction d as [|d IH] using Pos.peano_ind.
  - simpl. lia.
  - rewrite Pos.iter_succ. simpl. lia.
Qed.

Lemma binary_normalize_small m :
  0 <= m < 2 ^ 63 -> small_sf 64 (binary_normalize prec emax m 0 false).
Proof.
  intros [Hm Hlt]. destruct m as [|p|p]; simpl; [done| |lia].
  assert (Z.pos (digits2_pos p) <= 63) as Hd.
  { change (Zdigits2 (Z.pos p) <= 63). rewrite Zdigits2_log2 by lia.
    pose proof (proj1 (Z.log2_lt_pow2 (Z.pos p) 63 ltac:(lia)) Hlt). lia. }
  unfold binary_round, shl_align.
  destruct (fexp prec emax (Z.pos (digits2_pos p) + 0) - 0) as [|q|q] eqn:Hq;
    apply (binary_round_aux_small 63); try done; split_and!; simpl; try lia.
  rewrite digits2_pos_iter_xO. lia.
Qed.

Lemma double_of_int_small d :
  - 2 ^ 63 < d < 2 ^ 63 -> small_sf 64 (Prim2SF (double_of_int d)).
Proof.
  intros Hd. unfold double_of_int.
  assert (forall z, 0 <= z < 2 ^ 63 -> 0 <= Uint63.to_Z (Uint63.of_Z z) < 2 ^ 63) as Hz.
  { intros z Hz. apply Uint63.to_Z_bounded. }
  destruct (Z.leb_spec 0 d).
  - rewrite of_uint63_spec. apply binary_normalize_small, Hz. lia.
  - rewrite opp_spec, of_uint63_spec.
    apply small_sf_opp, binary_normalize_small, Hz. lia.
Qed.

Lemma SFdiv_small x sy my ey :
  small_sf 64 x -> - 100 <= ey <= 0 ->
  small_sf (65 - ey) (SF64div x (S754_finite sy my ey)).
Proof.
  destruct x as [sx|sx| |sx mx ex]; simpl; try done.
  intros [Hd He] Hey. unfold SFdiv_core_binary.
  set (e' := Z.min _ _).
  set (m' := match _ with Z0 => _ | Zpos _ => _ | Zneg _ => _ end).
  assert (below (64 - ey) m' e') as (Hm' & Hd' & He').
  { unfold m', e'. clear m' e'.
    set (e' := Z.min _ _).
    assert (e' <= ex - ey) by (unfold e'; lia).
    destruct (ex - ey - e') as [|s|s] eqn:Hs.
    - split_and!; simpl; lia.
    - split_and!; [by apply Z.shiftl_nonneg | | lia].
      rewrite Zdigits2_shiftl by lia. simpl. lia.
    - lia. }
  pose proof (Z_div_mod m' (Z.pos my) ltac:(lia)) as Hdiv.
  destruct (Z.div_eucl m' (Z.pos my)) as [q r]. destruct Hdiv as [Hq Hr].
  replace (65 - ey) with (64 - ey + 1) by lia.
  apply binary_round_aux_small; [unfold SpecFloat.emin, emax, prec; lia..|].
  assert (0 <= q <= m') as Hqm by nia.
  pose proof (Zdigits2_mono _ _ Hqm). split_and!; lia.
Qed.

Lemma duration_seconds_small a b :
  small_sf 88 (Prim2SF (duration_seconds a b)).
Proof.
  unfold duration_seconds. rewrite div_spec.
  assert (Prim2SF 1000000000 = S754_finite false 8388608000000000 (-23)) as ->
    by (by vm_compute).
  apply (SFdiv_small _ false _ (-23)); [|lia].
  unfold double_of_int64. destruct (Z.eqb_spec (sint64_wrap (b - a)) (- 2 ^ 63)) as [|Hne].
  { by vm_compute. }
  apply double_of_int_small. unfold sint64_wrap in *.
  pose proof (Z.mod_pos_bound (b - a + 2 ^ 63) (2 ^ 64) ltac:(lia)). lia.
Qed.

(** *** Order *)

Lemma SFcompare_rank x y :
  sf_number x -> sf_number y ->
  SFcompare x y = Some (rank_compare (sf_rank x) (sf_rank y)).
Proof.
  unfold sf_number, rank_compare.
  destruct x as [[]|[]| |[] mx ex], y as [[]|[]| |[] my ey]; try done; intros _ _; simpl.
  rewrite Z.compare_opp. f_equal. destruct (Z.compare_spec ex ey) as [->|H|H].
  - by rewrite Z.compare_refl.
  - by rewrite (proj2 (Z.compare_gt_iff ey ex)) by lia.
  - by rewrite (proj2 (Z.compare_lt_iff ey ex)) by lia.
Qed.

Lemma rank_compare_Lt a b :
  rank_compare a b = Lt <->
  a.1.1 < b.1.1 \/ (a.1.1 = b.1.1 /\ (a.1.2 < b.1.2 \/ (a.1.2 = b.1.2 /\ a.2 < b.2))).
Proof.
  unfold rank_compare.
  destruct (Z.compare_spec a.1.1 b.1.1), (Z.compare_spec a.1.2 b.1.2),
    (Z.compare_spec a.2 b.2); split; (done || lia).
Qed.

Lemma rank_compare_Eq a b :
  rank_compare a b = Eq <-> a.1.1 = b.1.1 /\ a.1.2 = b.1.2 /\ a.2 = b.2.
Proof.
  unfold rank_compare.
  destruct (Z.compare_spec a.1.1 b.1.1), (Z.compare_spec a.1.2 b.1.2),
    (Z.compare_spec a.2 b.2); split; (done || lia).
Qed.

Lemma SFltb_number x y : SFltb x y = true -> sf_number x /\ sf_number y.
Proof. by destruct x as [[]|[]| |[] mx ex], y as [[]|[]| |[] my ey]. Qed.

Lemma double_ltb_rank a b :
  (a <? b)%float = true <-> number a /\ number b /\ rank_compare (rank a) (rank b) = Lt.
Proof.
  rewrite FloatAxioms.ltb_spec. unfold number, rank. split.
  - intros H. destruct (SFltb_number _ _ H) as [Ha Hb]. split_and!; [done..|].
    unfold SFltb in H. rewrite SFcompare_rank in H by done.
    by destruct (rank_compare _ _).
  - intros (Ha & Hb & H). unfold SFltb. by rewrite SFcompare_rank, H.
Qed.

Lemma double_leb_rank a b :
  number a -> number b ->
  (a <=? b)%float = true <-> rank_compare (rank b) (rank a) <> Lt.
Proof.
  intros Ha Hb. rewrite FloatAxioms.leb_spec. unfold SFleb, rank.
  rewrite SFcompare_rank by done.
  set (ra := sf_rank (Prim2SF a)). set (rb := sf_rank (Prim2SF b)).
  rewrite rank_compare_Lt.
  destruct (rank_compare ra rb) eqn:E.
  - apply rank_compare_Eq in E. split; [lia|done].
  - apply rank_compare_Lt in E. split; [lia|done].
  - split; [done|]. intros H. exfalso. apply H.
    assert (rank_compare ra rb <> Lt /\ rank_compare ra rb <> Eq) as [H1 H2]
      by (rewrite E; done).
    rewrite rank_compare_Lt in H1. rewrite rank_compare_Eq in H2. lia.
Qed.

Lemma double_ltb_trans a b c :
  (a <? b)%float = true -> (b <? c)%float = true -> (a <? c)%float = true.
Proof.
  rewrite !double_ltb_rank, !rank_compare_Lt. intros (? & ? & ?) (? & ? & ?).
  split_and!; [done..|lia].
Qed.

Lemma double_ltb_leb a b : (a <? b)%float = true -> (a <=? b)%float = true.
Proof.
  intros (Ha & Hb & H)%double_ltb_rank. apply double_leb_rank; [done..|].
  rewrite rank_compare_Lt in *. lia.
Qed.

Lemma double_leb_refl a : number a -> (a <=? a)%float = true.
Proof. intros Ha. apply double_leb_rank; [done..|]. rewrite rank_compare_Lt. lia. Qed.

Lemma double_not_ltb_leb a b :
  number a -> number b -> (a <? b)%float = false -> (b <=? a)%float = true.
Proof.
  intros Ha Hb H. apply double_leb_rank; [done..|]. intros Hlt.
  assert ((a <? b)%float = true) by (by apply double_ltb_rank). congruence.
Qed.

Lemma double_ltb_leb_trans a b c :
  number c -> (a <? b)%float = true -> (b <=? c)%float = true -> (a <? c)%float = true.
Proof.
  intros Hc (Ha & Hb & H)%double_ltb_rank Hle. apply double_leb_rank in Hle; [|done..].
  apply double_ltb_rank. split_and!; [done..|].
  rewrite rank_compare_Lt in H, Hle |- *. lia.
Qed.

Lemma double_ltb_not_eqb a b : (a <? b)%float = true -> (b =? a)%float = false.
Proof.
  intros (Ha & Hb & H)%double_ltb_rank. rewrite FloatAxioms.eqb_spec. unfold SFeqb.
  rewrite SFcompare_rank by done. fold (rank a) (rank b).
  destruct (rank_compare (rank b) (rank a)) eqn:E; try done.
  apply rank_compare_Eq in E. apply rank_compare_Lt in H. lia.
Qed.

End Binary64.

Import Binary64.

(** ** Times *)

Lemma duration_seconds_number a b : number (duration_seconds a b).
Proof. eapply small_sf_number, duration_seconds_small. Qed.

Lemma duration_seconds_lt_DBL_MAX a b : (duration_seconds a b <? DBL_MAX)%float = true.
Proof.
  rewrite FloatAxioms.ltb_spec. pose proof (duration_seconds_small a b) as H.
  assert (Prim2SF DBL_MAX = S754_finite false 9007199254740991 971) as -> by (by vm_compute).
  destruct (Prim2SF (duration_seconds a b)) as [sx|sx| |[] m e]; simpl in *; try done.
  destruct H as [_ H]. unfold SFltb, SFcompare.
  by rewrite (proj2 (Z.compare_lt_iff e 971)) by lia.
Qed.

Lemma DBL_MAX_number : number DBL_MAX.
Proof. by vm_compute. Qed.

(** ** Tracking the minimum *)

Lemma update_best_lt K t fr :
  (t <? min_time fr)%float = true ->
  update_best K t fr = {| min_time := t; best_K := K |}.
Proof. intros H. unfold update_best. by rewrite H. Qed.

Lemma update_best_ge K t fr :
  (t <? min_time fr)%float = false -> update_best K t fr = fr.
Proof. intros H. unfold update_best. by rewrite H. Qed.

Lemma track_cons fr K t kts : track fr ((K, t) :: kts) = track (update_best K t fr) kts.
Proof. done. Qed.

Lemma track_spec kts fr :
  number (min_time fr) -> Forall (fun kt => number kt.2) kts ->
  (track fr kts = fr /\ Forall (fun kt => (kt.2 <? min_time fr)%float = false) kts)
  \/ (exists i K t,
        kts !! i = Some (K, t)
        /\ track fr kts = {| min_time := t; best_K := K |}
        /\ (t <? min_time fr)%float = true
        /\ (forall j kt, kts !! j = Some kt -> (t <=? kt.2)%float = true)
        /\ (forall j kt, (j < i)%nat -> kts !! j = Some kt -> (t <? kt.2)%float = true)).
Proof.
  revert fr. induction kts as [|[K0 t0] kts IH]; intros fr Hfr Hall.
  - left. by split.
  - apply Forall_cons in Hall as [Ht0 Hall]. simpl in Ht0. rewrite track_cons.
    destruct (t0 <? min_time fr)%float eqn:Hlt.
    + rewrite update_best_lt by done.
      destruct (IH {| min_time := t0; best_K := K0 |} Ht0 Hall)
        as [[Heq Hnone]|(i & K & t & Hi & Heq & Ht & Hmin & Hfirst)]; simpl in *.
      * right. exists 0%nat, K0, t0. split_and!; [done..| |].
        -- intros [|j] kt Hj; simplify_eq/=; [by apply double_leb_refl|].
           rewrite Forall_forall in Hnone, Hall.
           apply double_not_ltb_leb; [apply Hall|done|apply Hnone];
             by eapply list_elem_of_lookup_2.
        -- intros j kt Hj. lia.
      * right. exists (Datatypes.S i), K, t. split_and!; [done..| | |].
        -- by eapply double_ltb_trans.
        -- intros [|j] kt Hj; simplify_eq/=; [by apply double_ltb_leb|by eapply Hmin].
        -- intros [|j] kt Hj Hkt; simplify_eq/=; [done|]. eapply Hfirst; [|done]. lia.
    + rewrite update_best_ge by done.
      destruct (IH fr Hfr Hall) as [[Heq Hnone]|(i & K & t & Hi & Heq & Ht & Hmin & Hfirst)].
      * left. split; [done|]. by constructor.
      * right. exists (Datatypes.S i), K, t.
        assert ((t <? t0)%float = true) as Htt0.
        { eapply double_ltb_leb_trans; [done..|]. by apply double_not_ltb_leb. }
        split_and!; [done..| |].
        -- intros [|j] kt Hj; simplify_eq/=; [by apply double_ltb_leb|by eapply Hmin].
        -- intros [|j] kt Hj Hkt; simplify_eq/=; [done|]. eapply Hfirst; [|done]. lia.
Qed.

(** ** The sweep *)

Lemma sweep_times_cons env r n :
  sweep_times env r (Datatypes.S n)
  = duration_seconds (clock env r) (clock env (Datatypes.S r))
    :: sweep_times env (Datatypes.S (Datatypes.S r)) n.
Proof.
  unfold sweep_times. cbn [seq fmap list_fmap]. f_equal.
  - f_equal; f_equal; lia.
  - rewrite <- fmap_S_seq, <- list_fmap_compose.
    apply list_fmap_ext. intros _ i _. simpl. f_equal; f_equal; lia.
Qed.

Lemma length_sweep_times env r n : length (sweep_times env r n) = n.
Proof. unfold sweep_times. by rewrite length_fmap, length_seq. Qed.

Lemma lookup_sweep_times env r n i :
  (i < n)%nat ->
  sweep_times env r n !! i
  = Some (measured env {| clock_reads := r + 2 * i; stdout := [] |}).
Proof.
  intros Hi. unfold sweep_times, measured. rewrite list_lookup_fmap, lookup_seq_lt by done.
  simpl. do 3 f_equal. lia.
Qed.

Lemma sweep_spec env data op K_values fr w :
  vector_size_ok data -> Forall is_int K_values ->
  sweep env data op K_values fr w
  = Some (track fr (zip K_values (sweep_times env (clock_reads w) (length K_values))),
          {| clock_reads := clock_reads w + 2 * length K_values;
             stdout := stdout w ++ zip_with TableRow K_values
                                     (sweep_times env (clock_reads w) (length K_values)) |}).
Proof.
  intros Hsize. revert fr w.
  induction K_values as [|K Ks IH]; intros fr w HKs.
  - simpl. destruct w. simpl. by rewrite Nat.add_0_r, app_nil_r.
  - apply Forall_cons in HKs as [HK HKs].
    cbn [sweep]. rewrite measure_custom_parallel_transform_spec by done.
    cbn [mbind option_bind seconds]. rewrite IH by done.
    cbn [length]. rewrite sweep_times_cons. cbn [print after_measurement clock_reads stdout].
    unfold measured. cbn [zip zip_with track foldl fst snd].
    do 3 f_equal; [lia|]. by rewrite <- app_assoc.
Qed.

(** ** The reporting function *)

Lemma measure_and_print_custom_parallel_spec env data op K_values num_cores w :
  vector_size_ok data -> Forall is_int K_values ->
  measure_and_print_custom_parallel env data op K_values num_cores w
  = Some {| clock_reads := clock_reads w + 2 * length K_values;
            stdout := stdout w ++ [TableHeader]
                        ++ zip_with TableRow K_values (sweep_best_times env w K_values)
                        ++ [BestLine (sweep_best env w K_values);
                            RelationLine (sweep_best env w K_values) num_cores] |}.
Proof.
  intros Hsize HKs. unfold measure_and_print_custom_parallel.
  fold first_frame. rewrite sweep_spec by done.
  cbn [mbind option_bind print clock_reads stdout].
  unfold sweep_best, sweep_best_times, print. cbn [clock_reads stdout].
  do 2 f_equal. by rewrite <- !app_assoc.
Qed.

Lemma sweep_times_lt_DBL_MAX env r n t :
  t ∈ sweep_times env r n -> (t <? DBL_MAX)%float = true.
Proof.
  unfold sweep_times. intros (i & -> & _)%list_elem_of_fmap.
  apply duration_seconds_lt_DBL_MAX.
Qed.

(** With at least one candidate whose time is below [DBL_MAX], the best
    candidate is the first one among those with the least time. *)
Lemma track_first_minimum (K_values : list Z) (times : list double) :
  K_values <> [] -> length times = length K_values ->
  (forall t, t ∈ times -> (t <? DBL_MAX)%float = true) ->
  exists i t,
    K_values !! i = Some (best_K (track first_frame (zip K_values times)))
    /\ times !! i = Some t
    /\ (forall j t', times !! j = Some t' -> (t <=? t')%float = true)
    /\ (forall j t', (j < i)%nat -> times !! j = Some t' -> (t <? t')%float = true).
Proof.
  intros Hne Hlen Hlt.
  assert (forall j t', times !! j = Some t' -> exists K', zip K_values times !! j = Some (K', t'))
    as Hzip.
  { intros j t' Hj.
    destruct (lookup_lt_is_Some_2 K_values j) as [K' HK'].
    { rewrite <- Hlen. by eapply lookup_lt_Some. }
    exists K'. apply lookup_zip_with_Some. eauto. }
  assert (Forall (fun kt : Z * double => number kt.2) (zip K_values times)) as Hnum.
  { apply Forall_forall. intros [K t] (j & Hj)%list_elem_of_lookup_1.
    apply lookup_zip_with_Some in Hj as (K' & t' & [= <- <-] & _ & Ht).
    simpl. apply (proj1 (double_ltb_rank t DBL_MAX)), Hlt.
    by eapply list_elem_of_lookup_2. }
  destruct (track_spec (zip K_values times) first_frame DBL_MAX_number Hnum)
    as [[_ Hall]|(i & K & t & Hi & -> & _ & Hmin & Hfirst)].
  - exfalso. destruct K_values as [|K Ks]; [done|].
    destruct times as [|t ts]; [done|].
    apply Forall_cons in Hall as [Hall _]. simpl in Hall.
    rewrite Hlt in Hall; [done|]. apply elem_of_cons. by left.
  - apply lookup_zip_with_Some in Hi as (K' & t' & [= <- <-] & HK & Ht).
    exists i, t. split_and!; [done..| |].
    + intros j t' Hj. destruct (Hzip j t' Hj) as [K' HK']. apply (Hmin j _ HK').
    + intros j t' Hji Hj. destruct (Hzip j t' Hj) as [K' HK']. apply (Hfirst j _ Hji HK').
Qed.

(** * The claims *)

(** Claim C1. For every sample array whose size fits [size_t] (empty or
    not) and one operation, any two of the five strategies (no policy,
    [seq], [par], [par_unseq], custom split with any [K >= 1]) return and
    leave the same result array, whatever the clock shows and whatever
    order the scheduler or the library chooses; that array is the image
    of the sample under the operation. With [fast_op], a custom split
    and no policy, this is the comparison of
    [measure_custom_parallel_transform] with [measure_transform]. *)
Theorem strategies_agree env data op st1 st2 w1 w2 :
  vector_size_ok data -> valid_strategy st1 -> valid_strategy st2 ->
  exists m1 m2 w1' w2',
    measure env st1 data op w1 = Some (m1, w1')
    /\ measure env st2 data op w2 = Some (m2, w2')
    /\ result (final m1) = result (final m2)
    /\ result (final m1) = op <$> data.
Proof.
  intros Hsize H1%valid_strategy_int H2%valid_strategy_int.
  destruct (measure_spec env st1 data op w1 Hsize H1) as (m1 & E1 & _ & F1).
  destruct (measure_spec env st2 data op w2 Hsize H2) as (m2 & E2 & _ & F2).
  exists m1, m2, (after_measurement w1), (after_measurement w2).
  split_and!; [done..| |]; by rewrite F1, ?F2.
Qed.

Lemma strategies_agree_witness :
  vector_size_ok demo_data /\
  exists m1 m2 w1' w2',
    measure demo_env (custom_parallel 3) demo_data fast_op demo_world = Some (m1, w1')
    /\ measure demo_env no_policy demo_data fast_op demo_world = Some (m2, w2')
    /\ result (final m1) = result (final m2)
    /\ result (final m1) = fast_op <$> demo_data.
Proof.
  assert (vector_size_ok demo_data) as H by (vm_compute; reflexivity).
  split; [exact H|].
  apply (strategies_agree demo_env demo_data fast_op (custom_parallel 3) no_policy
           demo_world demo_world H); [unfold valid_strategy, INT_MAX; lia | exact I].
Defined.

(** Claim C2. For every length [N] and every [K >= 1] the spawning loop
    creates exactly [K] chunks; chunk [i] has [N / K] elements, plus one
    when [i < N mod K]; the first chunk starts at 0, every chunk starts
    where the previous one ends, chunks do not overlap, the last one ends
    at [N]; the sizes add up to [N] and any two differ by at most one. *)
Theorem custom_chunks_partition (N K : Z) :
  0 <= N < SIZE_MODULUS -> 1 <= K <= INT_MAX ->
  let ts := spawn_threads N K in
  length ts = Z.to_nat K
  /\ (forall i t, ts !! i = Some t ->
        0 <= chunk_begin t <= chunk_end t /\ chunk_end t <= N
        /\ chunk_len t = N / K + (if Z.of_nat i <? N mod K then 1 else 0))
  /\ (exists t, ts !! 0%nat = Some t /\ chunk_begin t = 0)
  /\ (forall i t t', ts !! i = Some t -> ts !! Datatypes.S i = Some t' ->
        chunk_begin t' = chunk_end t)
  /\ (forall i j t t', (i < j)%nat -> ts !! i = Some t -> ts !! j = Some t' ->
        chunk_end t <= chunk_begin t')
  /\ (exists t, list.last ts = Some t /\ chunk_end t = N)
  /\ sum_Z (chunk_len <$> ts) = N
  /\ (forall t t', t ∈ ts -> t' ∈ ts -> Z.abs (chunk_len t - chunk_len t') <= 1).
Proof.
  intros HN HK ts.
  assert (0 <= N) as HN0 by lia. assert (1 <= K) as HK1 by lia.
  assert (length ts = Z.to_nat K) as Hlen.
  { unfold ts. by rewrite spawn_threads_closed, length_fmap, length_seqZ. }
  assert (forall i t, ts !! i = Some t ->
            chunk_len t = N / K + (if Z.of_nat i <? N mod K then 1 else 0)) as Hsz.
  { intros i t [-> Hi]%spawn_threads_lookup; [|done..].
    unfold chunk_len, chunk. simpl. rewrite chunk_start_succ by done. lia. }
  split_and!.
  - done.
  - intros i t Ht. split_and!; [..|by apply Hsz].
    all: apply spawn_threads_lookup in Ht as [-> Hi]; [|done..]; simpl.
    + apply chunk_start_nonneg; lia.
    + by apply chunk_start_mono.
    + apply chunk_start_le_N; lia.
  - exists (chunk N K 0). split; [|by apply chunk_start_0].
    apply spawn_threads_lookup; [done..|]. split; [done|lia].
  - intros i t t' [-> Hi]%spawn_threads_lookup [-> Hi']%spawn_threads_lookup; [|done..].
    simpl. f_equal. lia.
  - intros i j t t' Hij [-> Hi]%spawn_threads_lookup [-> Hj]%spawn_threads_lookup; [|done..].
    simpl. apply chunk_start_mono_le; lia.
  - exists (chunk N K (K - 1)). split.
    + rewrite last_lookup, Hlen. apply spawn_threads_lookup; [done..|].
      split; [f_equal|]; lia.
    + simpl. replace (K - 1 + 1) with K by lia. by apply chunk_start_K.
  - unfold ts. rewrite spawn_threads_closed by done.
    pose proof (chunk_len_sum N K (Z.to_nat K) HN0 HK1) as H.
    rewrite Z2Nat.id in H by lia. rewrite H. by apply chunk_start_K.
  - intros t t' [i Hi]%list_elem_of_lookup_1 [j Hj]%list_elem_of_lookup_1.
    rewrite (Hsz _ _ Hi), (Hsz _ _ Hj).
    destruct (Z.of_nat i <? N mod K), (Z.of_nat j <? N mod K); lia.
Qed.

Lemma custom_chunks_partition_witness :
  let ts := spawn_threads 10 3 in
  length ts = 3%nat
  /\ (forall i t, ts !! i = Some t ->
        0 <= chunk_begin t <= chunk_end t /\ chunk_end t <= 10
        /\ chunk_len t = 10 / 3 + (if Z.of_nat i <? 10 mod 3 then 1 else 0))
  /\ (exists t, ts !! 0%nat = Some t /\ chunk_begin t = 0)
  /\ (forall i t t', ts !! i = Some t -> ts !! Datatypes.S i = Some t' ->
        chunk_begin t' = chunk_end t)
  /\ (forall i j t t', (i < j)%nat -> ts !! i = Some t -> ts !! j = Some t' ->
        chunk_end t <= chunk_begin t')
  /\ (exists t, list.last ts = Some t /\ chunk_end t = 10)
  /\ sum_Z (chunk_len <$> ts) = 10
  /\ (forall t t', t ∈ ts -> t' ∈ ts -> Z.abs (chunk_len t - chunk_len t') <= 1).
Proof.
  apply (custom_chunks_partition 10 3); unfold SIZE_MODULUS, INT_MAX; lia.
Defined.

(** Claim C3. With [K <= 0] the custom strategy does what it does with
    [K = 1]: the whole run is the same, one worker is created, its chunk
    is the whole vector, and the result is the image of the sample. *)
Theorem nonpositive_K_runs_one_thread env data op K w :
  vector_size_ok data -> K <= 0 ->
  measure_custom_parallel_transform env data op K w
  = measure_custom_parallel_transform env data op 1 w
  /\ exists m w',
       measure_custom_parallel_transform env data op K w = Some (m, w')
       /\ workers m = [{| chunk_begin := 0; chunk_end := vec_size data |}]
       /\ result (final m) = op <$> data.
Proof.
  intros Hsize HK.
  assert (measure_custom_parallel_transform env data op K w
          = measure_custom_parallel_transform env data op 1 w) as Heq.
  { unfold measure_custom_parallel_transform, clamp_threads.
    by rewrite (proj2 (Z.leb_le K 0) HK). }
  split; [done|]. rewrite Heq.
  rewrite measure_custom_parallel_transform_spec; [|done|by compute].
  eexists _, _. split; [done|]. split; [|done]. cbn [workers].
  assert (0 <= vec_size data < SIZE_MODULUS) as HN
    by (unfold vector_size_ok, vec_size in *; lia).
  rewrite spawn_threads_closed; [|done|by compute].
  change (clamp_threads 1) with 1. change (seqZ 0 1) with [0]. simpl. unfold chunk.
  change (0 + 1) with 1.
  by rewrite chunk_start_0, (chunk_start_K (vec_size data) 1) by lia.
Qed.

Lemma nonpositive_K_runs_one_thread_witness :
  measure_custom_parallel_transform demo_env demo_data fast_op (-3) demo_world
  = measure_custom_parallel_transform demo_env demo_data fast_op 1 demo_world
  /\ exists m w',
       measure_custom_parallel_transform demo_env demo_data fast_op (-3) demo_world = Some (m, w')
       /\ workers m = [{| chunk_begin := 0; chunk_end := vec_size demo_data |}]
       /\ result (final m) = fast_op <$> demo_data.
Proof.
  apply (nonpositive_K_runs_one_thread demo_env demo_data fast_op (-3) demo_world);
    [vm_compute; reflexivity | lia].
Defined.

(** Claim C4. Two calls of [generate_data] with the same count, seed and
    bounds return the same sequence: the first [N] draws of an engine
    that the call seeds itself; the sequence has [N] values, and none
    when the count is zero. *)
Theorem generate_data_is_deterministic (engine : Type) (mt19937 : Z -> engine)
    (uniform_real : double -> double -> engine -> double * engine)
    (N N' seed seed' : Z) (a a' b b' : double) :
  N = N' -> seed = seed' -> a = a' -> b = b' ->
  generate_data engine mt19937 uniform_real N seed a b
  = generate_data engine mt19937 uniform_real N' seed' a' b'
  /\ generate_data engine mt19937 uniform_real N seed a b
     = draw engine mt19937 uniform_real a b seed <$> seq 0 (Z.to_nat N)
  /\ length (generate_data engine mt19937 uniform_real N seed a b) = Z.to_nat N
  /\ generate_data engine mt19937 uniform_real 0 seed a b = [].
Proof.
  intros <- <- <- <-. rewrite !generate_data_draws.
  split_and!; [done..| |done]. by rewrite length_fmap, length_seq.
Qed.

Lemma generate_data_is_deterministic_witness :
  generate_data Z counter_seed counter_draw 3 42 0%float 1%float
  = generate_data Z counter_seed counter_draw 3 42 0%float 1%float
  /\ generate_data Z counter_seed counter_draw 3 42 0%float 1%float
     = draw Z counter_seed counter_draw 0%float 1%float 42 <$> seq 0 (Z.to_nat 3)
  /\ length (generate_data Z counter_seed counter_draw 3 42 0%float 1%float) = Z.to_nat 3
  /\ generate_data Z counter_seed counter_draw 0 42 0%float 1%float = [].
Proof.
  apply (generate_data_is_deterministic Z counter_seed counter_draw 3 3 42 42
           0%float 0%float 1%float 1%float); reflexivity.
Defined.

(** Claim C5. For a non-empty candidate list the reporting function
    prints the header, one row per candidate in candidate order with the
    time measured for it, and a best K that occurs in the list at a
    position whose time is the least of all the measured times. *)
Theorem best_K_is_a_fastest_candidate env data op K_values num_cores w :
  K_values <> [] -> Forall is_int K_values -> vector_size_ok data ->
  let times := sweep_times env (clock_reads w) (length K_values) in
  exists best w',
    measure_and_print_custom_parallel env data op K_values num_cores w = Some w'
    /\ stdout w' = stdout w ++ [TableHeader] ++ zip_with TableRow K_values times
                     ++ [BestLine best; RelationLine best num_cores]
    /\ length (zip_with TableRow K_values times) = length K_values
    /\ (forall i K out, K_values !! i = Some K ->
          exists m w'',
            measure_custom_parallel_transform env data op K
              {| clock_reads := clock_reads w + 2 * i; stdout := out |} = Some (m, w'')
            /\ times !! i = Some (seconds m))
    /\ exists i t,
         K_values !! i = Some best /\ times !! i = Some t
         /\ forall j t', times !! j = Some t' -> (t <=? t')%float = true.
Proof.
  intros Hne HKs Hsize times.
  rewrite measure_and_print_custom_parallel_spec by done.
  unfold sweep_best, sweep_best_times. fold times.
  eexists _, _. split; [done|]. cbn [stdout]. split; [done|].
  assert (length times = length K_values) as Hlen by apply length_sweep_times.
  split_and!.
  - rewrite length_zip_with_l_eq; [done|by rewrite Hlen].
  - intros i K out Hi. rewrite measure_custom_parallel_transform_spec;
      [|done|by eapply Forall_lookup_1].
    eexists _, _. split; [done|]. cbn [seconds].
    unfold times. rewrite lookup_sweep_times by (by eapply lookup_lt_Some).
    done.
  - destruct (track_first_minimum K_values times Hne Hlen) as (i & t & ? & ? & ? & _).
    { intros t. apply sweep_times_lt_DBL_MAX. }
    eauto.
Qed.

Lemma best_K_is_a_fastest_candidate_witness :
  let times := sweep_times demo_env (clock_reads demo_world) (length [1; 2; 4]) in
  exists best w',
    measure_and_print_custom_parallel demo_env demo_data fast_op [1; 2; 4] 8 demo_world = Some w'
    /\ stdout w' = stdout demo_world ++ [TableHeader] ++ zip_with TableRow [1; 2; 4] times
                     ++ [BestLine best; RelationLine best 8]
    /\ length (zip_with TableRow [1; 2; 4] times) = length [1; 2; 4]
    /\ (forall i K out, [1; 2; 4] !! i = Some K ->
          exists m w'',
            measure_custom_parallel_transform demo_env demo_data fast_op K
              {| clock_reads := clock_reads demo_world + 2 * i; stdout := out |} = Some (m, w'')
            /\ times !! i = Some (seconds m))
    /\ exists i t,
         [1; 2; 4] !! i = Some best /\ times !! i = Some t
         /\ forall j t', times !! j = Some t' -> (t <=? t')%float = true.
Proof.
  apply (best_K_is_a_fastest_candidate demo_env demo_data fast_op [1; 2; 4] 8 demo_world);
    [discriminate | repeat constructor; by compute | vm_compute; reflexivity].
Defined.

(** Claim C6. Generate 10000 values in [0,1) with seed 42 and apply
    [fast_op] with the custom strategy and [K = 4]: four workers are
    created, their chunks have 2500 elements each, the result has 10000
    elements and each is the corresponding input plus 1.0. *)
Theorem end_to_end_fast_custom_4 (engine : Type) (mt19937 : Z -> engine)
    (uniform_real : double -> double -> engine -> double * engine)
    (env : environment) (w : world) :
  let data := generate_data engine mt19937 uniform_real 10000 42 0%float 1%float in
  exists m w',
    measure_custom_parallel_transform env data fast_op 4 w = Some (m, w')
    /\ length (workers m) = 4%nat
    /\ chunk_len <$> workers m = [2500; 2500; 2500; 2500]
    /\ length data = Z.to_nat 10000
    /\ length (result (final m)) = Z.to_nat 10000
    /\ forall i x, data !! i = Some x -> result (final m) !! i = Some (x + 1)%float.
Proof.
  intros data.
  assert (length data = Z.to_nat 10000) as Hlen.
  { unfold data. rewrite generate_data_draws. by rewrite length_fmap, length_seq. }
  clearbody data.
  assert (vec_size data = 10000) as HN by (unfold vec_size; rewrite Hlen; done).
  rewrite measure_custom_parallel_transform_spec;
    [|unfold vector_size_ok; rewrite HN; done | by compute].
  eexists _, _. split; [done|]. cbn [workers final result transformed].
  rewrite HN. change (clamp_threads 4) with 4.
  split_and!; [by vm_compute | by vm_compute | done | by rewrite length_fmap |].
  intros i x Hx. apply list_lookup_fmap_Some. by exists x.
Qed.

(** Claim C7, as stated, fails: when the clock is set back between the
    two readings, the returned time is negative. *)
Lemma elapsed_time_can_be_negative :
  exists m w',
    measure_transform clock_set_back demo_data fast_op demo_world = Some (m, w')
    /\ (seconds m <? 0)%float = true.
Proof.
  rewrite measure_transform_spec. eexists _, _. split; [done|]. by vm_compute.
Qed.

(** Claim C7, amended. The value returned by each of the harness
    functions is the difference of its two readings of the clock, in
    seconds; it is [>= 0] whenever the second reading is not before the
    first. *)
Theorem elapsed_nonneg_when_clock_does_not_go_back env st data op w :
  vector_size_ok data -> int_strategy st ->
  clock env (clock_reads w) <= clock env (Datatypes.S (clock_reads w)) ->
  clock env (Datatypes.S (clock_reads w)) - clock env (clock_reads w) < 2 ^ 63 ->
  exists m w',
    measure env st data op w = Some (m, w')
    /\ seconds m = duration_seconds (clock env (clock_reads w))
                                    (clock env (Datatypes.S (clock_reads w)))
    /\ (0 <=? seconds m)%float = true.
Proof.
  intros Hsize Hst Hmono Hrange.
  destruct (measure_spec env st data op w Hsize Hst) as (m & E & T & _).
  exists m, (after_measurement w). rewrite T. unfold measured.
  split_and!; [done..|]. by apply duration_seconds_nonneg.
Qed.

Lemma elapsed_nonneg_when_clock_does_not_go_back_witness :
  exists m w',
    measure demo_env (custom_parallel 2) demo_data fast_op demo_world = Some (m, w')
    /\ seconds m = duration_seconds (clock demo_env (clock_reads demo_world))
                                    (clock demo_env (Datatypes.S (clock_reads demo_world)))
    /\ (0 <=? seconds m)%float = true.
Proof.
  apply (elapsed_nonneg_when_clock_does_not_go_back demo_env (custom_parallel 2)
           demo_data fast_op demo_world);
    [vm_compute; reflexivity | by compute | by vm_compute | by vm_compute].
Defined.

(** Claim C8. For every input [x], [slow_op] returns the sum of the sines
    of 0..99 plus [x]; it calls the sine 100 times, on 0..99 in this
    order, whatever the input. *)
Theorem slow_op_sums_sines (sin : double -> double) (x : double) :
  slow_op sin x = slow_op_spec sin x
  /\ (slow_op_run sin x).2 = (fun i => double_of_int (Z.of_nat i)) <$> seq 0 100
  /\ length (slow_op_run sin x).2 = 100%nat
  /\ forall y, (slow_op_run sin y).2 = (slow_op_run sin x).2.
Proof.
  unfold slow_op, slow_op_spec, slow_op_run. rewrite slow_loop_closed.
  cbn [fst snd s sin_args]. split_and!; [done..| |done].
  by rewrite length_fmap, length_seq.
Qed.

(** Claim C9. Whatever the strategy, the operation and the thread count,
    a measurement returns with the sample array as it was and with a
    result array, allocated by the call, of the same length; indeed no
    sequence of element accesses ever changes the sample. *)
Theorem sample_array_is_not_mutated env st data op w :
  vector_size_ok data -> int_strategy st ->
  exists m w',
    measure env st data op w = Some (m, w')
    /\ sample (final m) = data
    /\ length (result (final m)) = length data
    /\ forall l st0 st1, run_accesses op l st0 = Some st1 -> sample st1 = sample st0.
Proof.
  intros Hsize Hst.
  destruct (measure_spec env st data op w Hsize Hst) as (m & E & _ & F).
  exists m, (after_measurement w). rewrite F. simpl.
  split_and!; [done | done | by rewrite length_fmap |].
  intros l st0 st1 H. by apply run_accesses_frame in H as [? _].
Qed.

Lemma sample_array_is_not_mutated_witness :
  exists m w',
    measure demo_env (custom_parallel 2) demo_data fast_op demo_world = Some (m, w')
    /\ sample (final m) = demo_data
    /\ length (result (final m)) = length demo_data
    /\ forall l st0 st1, run_accesses fast_op l st0 = Some st1 -> sample st1 = sample st0.
Proof.
  apply (sample_array_is_not_mutated demo_env (custom_parallel 2) demo_data fast_op demo_world);
    [vm_compute; reflexivity | by compute].
Defined.

(** Claim C10. Among candidates with the same least time the first one
    is reported: every earlier candidate was strictly slower than the
    reported one. For the empty list the lines for best K 1 are printed
    although nothing was measured. *)
Theorem ties_pick_earliest_and_empty_list_prints_1 env data op K_values num_cores w :
  Forall is_int K_values -> vector_size_ok data ->
  let times := sweep_times env (clock_reads w) (length K_values) in
  (K_values <> [] ->
   exists best i t,
     measure_and_print_custom_parallel env data op K_values num_cores w
     = Some {| clock_reads := clock_reads w + 2 * length K_values;
               stdout := stdout w ++ [TableHeader] ++ zip_with TableRow K_values times
                           ++ [BestLine best; RelationLine best num_cores] |}
     /\ K_values !! i = Some best /\ times !! i = Some t
     /\ (forall j t', times !! j = Some t' -> (t <=? t')%float = true)
     /\ (forall j t', (j < i)%nat -> times !! j = Some t' -> (t <? t')%float = true)
     /\ (forall j t', times !! j = Some t' -> (t' =? t)%float = true -> (i <= j)%nat))
  /\ measure_and_print_custom_parallel env data op [] num_cores w
     = Some {| clock_reads := clock_reads w;
               stdout := stdout w ++ [TableHeader; BestLine 1; RelationLine 1 num_cores] |}.
Proof.
  intros HKs Hsize times. split.
  - intros Hne. rewrite measure_and_print_custom_parallel_spec by done.
    unfold sweep_best, sweep_best_times. fold times.
    destruct (track_first_minimum K_values times Hne) as (i & t & HK & Ht & Hmin & Hfirst).
    { apply length_sweep_times. }
    { intros t. apply sweep_times_lt_DBL_MAX. }
    eexists _, i, t. split_and!; [done..|].
    intros j t' Hj Heq. destruct (decide (i <= j)%nat) as [|Hlt]; [done|].
    assert ((t <? t')%float = true) as H%double_ltb_not_eqb
      by (eapply Hfirst; [|done]; lia).
    congruence.
  - rewrite measure_and_print_custom_parallel_spec by (done || constructor).
    simpl. do 2 f_equal. lia.
Qed.

Lemma ties_pick_earliest_and_empty_list_prints_1_witness :
  let times := sweep_times tie_env (clock_reads demo_world) (length [1; 2; 4]) in
  (exists best i t,
     measure_and_print_custom_parallel tie_env demo_data fast_op [1; 2; 4] 8 demo_world
     = Some {| clock_reads := clock_reads demo_world + 2 * length [1; 2; 4];
               stdout := stdout demo_world ++ [TableHeader] ++ zip_with TableRow [1; 2; 4] times
                           ++ [BestLine best; RelationLine best 8] |}
     /\ [1; 2; 4] !! i = Some best /\ times !! i = Some t
     /\ (forall j t', times !! j = Some t' -> (t <=? t')%float = true)
     /\ (forall j t', (j < i)%nat -> times !! j = Some t' -> (t <? t')%float = true)
     /\ (forall j t', times !! j = Some t' -> (t' =? t)%float = true -> (i <= j)%nat))
  /\ measure_and_print_custom_parallel tie_env demo_data fast_op [] 8 demo_world
     = Some {| clock_reads := clock_reads demo_world;
               stdout := stdout demo_world ++ [TableHeader; BestLine 1; RelationLine 1 8] |}.
Proof.
  destruct (ties_pick_earliest_and_empty_list_prints_1 tie_env demo_data fast_op
              [1; 2; 4] 8 demo_world) as [Hties Hempty];
    [repeat constructor; by compute | vm_compute; reflexivity |].
  split; [apply Hties; discriminate | exact Hempty].
Defined.

Example tie_goes_to_the_earlier_candidate :
  measure_and_print_custom_parallel tie_env demo_data fast_op [1; 2; 4] 8 demo_world
  = Some {| clock_reads := 6;
            stdout := [TableHeader; TableRow 1 (duration_seconds 0 3000);
                       TableRow 2 (duration_seconds 0 2000);
                       TableRow 4 (duration_seconds 0 2000);
                       BestLine 2; RelationLine 2 8] |}.
Proof. by vm_compute. Qed.

(** * Further properties: the report, the program, the workers and the times *)

(** ** The reporting loop in closed form *)

Lemma measured_time_of env r i out :
  measured env {| clock_reads := r + 2 * i; stdout := out |} = time_of env r i.
Proof. unfold measured, time_of. cbn [clock_reads]. do 2 f_equal. lia. Qed.

Local Ltac step :=
  unfold after_measurement, measured;
  cbn [mbind option_bind seconds clock_reads stdout reads printed fmap list_fmap].

Lemma run_and_print_all_transforms_spec env data ops K_values num_cores p :
  vector_size_ok data -> Forall is_int K_values ->
  run_and_print_all_transforms env data ops K_values num_cores p
  = Some {| reads := reads p + length ops * reads_per_operation K_values;
            printed := printed p ++ report env (reads p) ops.*1 K_values num_cores |}.
Proof.
  intros Hsize HKs. revert p. induction ops as [|[op_name op] ops IH]; intros [r out].
  - simpl. by rewrite Nat.add_0_r, app_nil_r.
  - cbn [run_and_print_all_transforms]. unfold say, resume, measuring. cbn [reads printed].
    rewrite measure_transform_spec. step.
    do 3 (rewrite measure_policy_transform_spec; step).
    rewrite measure_and_print_custom_parallel_spec by done. step.
    rewrite IH. step. f_equal. f_equal.
    + unfold reads_per_operation. cbn [length]. lia.
    + cbn [report fmap list_fmap fst]. unfold operation_report, time_of, reads_per_operation.
      rewrite !app_nil_r, <- !app_assoc. cbn [app fmap list_fmap].
      repeat (lia || f_equal).
Qed.

(** ** Shape of the report *)

Lemma omap_custom_lines {B} (f : report_line -> option B) (l : list out_line) :
  (forall x, x ∈ l -> f (CustomLine x) = None) -> omap f (CustomLine <$> l) = [].
Proof.
  induction l as [|x l IH]; intros H; [done|]. cbn.
  rewrite H by (apply elem_of_cons; by left).
  apply IH. intros y Hy. apply H, elem_of_cons. by right.
Qed.

Lemma elem_of_table_rows K_values (times : list double) x :
  x ∈ zip_with TableRow K_values times -> exists K t, x = TableRow K t.
Proof.
  intros (K & t & -> & _)%elem_of_zip_with. eauto.
Qed.



Lemma best_candidates_operation_report env r op_name K_values num_cores :
  best_candidates (operation_report env r op_name K_values num_cores)
  = [sweep_best env {| clock_reads := r + 8; stdout := [] |} K_values].
Proof.
  unfold best_candidates, operation_report. cbn zeta.
  rewrite !omap_app, fmap_app, fmap_app, !omap_app.
  rewrite (omap_custom_lines _ (zip_with _ _ _)).
  - done.
  - by intros x (K & t & ->)%elem_of_table_rows.
Qed.





Lemma sweep_best_candidate env w K_values :
  K_values <> [] -> sweep_best env w K_values ∈ K_values.
Proof.
  intros Hne. unfold sweep_best, sweep_best_times.
  destruct (track_first_minimum K_values (sweep_times env (clock_reads w) (length K_values)) Hne)
    as (i & t & Hi & _).
  - apply length_sweep_times.
  - intros t. apply sweep_times_lt_DBL_MAX.
  - by eapply list_elem_of_lookup_2.
Qed.

Lemma best_candidates_report env r op_names K_values num_cores :
  length (best_candidates (report env r op_names K_values num_cores)) = length op_names
  /\ (K_values <> [] ->
      Forall (fun k => k ∈ K_values) (best_candidates (report env r op_names K_values num_cores))).
Proof.
  revert r. induction op_names as [|n ns IH]; intros r; [by split; [|constructor]|].
  cbn [report]. unfold best_candidates in *. rewrite omap_app.
  fold (best_candidates (operation_report env r n K_values num_cores)).
  rewrite best_candidates_operation_report.
  destruct (IH (r + reads_per_operation K_values)%nat) as [IH1 IH2].
  split.
  - cbn [app length]. by rewrite IH1.
  - intros Hne. cbn [app]. constructor; [by apply sweep_best_candidate|by apply IH2].
Qed.

(** The report depends on the environment through the clock only. *)
Lemma sweep_times_clock env1 env2 r n :
  (forall k, clock env1 k = clock env2 k) -> sweep_times env1 r n = sweep_times env2 r n.
Proof.
  intros H. unfold sweep_times. apply list_fmap_ext. intros _ i _. by rewrite !H.
Qed.

Lemma report_clock env1 env2 r op_names K_values num_cores :
  (forall k, clock env1 k = clock env2 k) ->
  report env1 r op_names K_values num_cores = report env2 r op_names K_values num_cores.
Proof.
  intros H. revert r. induction op_names as [|n ns IH]; intros r; [done|].
  cbn [report]. rewrite IH. f_equal.
  unfold operation_report, time_of, sweep_best, sweep_best_times. cbn zeta.
  by rewrite !H, (sweep_times_clock env1 env2) by done.
Qed.

(** ** Properties of the reporting loop *)



(** Extra X2. When the list of candidates is not empty, every operation
    block of [run_and_print_all_transforms] reports exactly one best
    thread count, and each reported count is one of the candidates. *)
Theorem every_block_reports_a_candidate env data ops K_values num_cores p :
  vector_size_ok data -> Forall is_int K_values -> K_values <> [] ->
  exists p' new,
    run_and_print_all_transforms env data ops K_values num_cores p = Some p'
    /\ printed p' = printed p ++ new
    /\ length (best_candidates new) = length ops
    /\ Forall (fun k => k ∈ K_values) (best_candidates new).
Proof.
  intros Hsize HKs Hne. rewrite run_and_print_all_transforms_spec by done.
  eexists _, _. split; [done|]. cbn [printed]. split; [done|].
  destruct (best_candidates_report env (reads p) ops.*1 K_values num_cores) as [H1 H2].
  split; [by rewrite H1, length_fmap | by apply H2].
Qed.

Lemma every_block_reports_a_candidate_witness :
  exists p' new,
    run_and_print_all_transforms tie_env demo_data [("fast"%string, fast_op)] [1; 2] 8
      {| reads := 0; printed := [] |} = Some p'
    /\ printed p' = [] ++ new
    /\ length (best_candidates new) = length [("fast"%string, fast_op)]
    /\ Forall (fun k => k ∈ [1; 2]) (best_candidates new).
Proof.
  apply (every_block_reports_a_candidate tie_env demo_data [("fast"%string, fast_op)]
           [1; 2] 8 {| reads := 0; printed := [] |});
    [vm_compute; reflexivity | repeat constructor; by compute | discriminate].
Defined.

(** Extra X3. What [run_and_print_all_transforms] prints depends on the
    clock only: two runs that see the same clock readings print the same
    lines, whatever the scheduler, the data and the operations behind
    the same names. *)
Theorem report_depends_on_the_clock_only env1 env2 data1 data2 ops1 ops2 K_values num_cores p :
  vector_size_ok data1 -> vector_size_ok data2 -> Forall is_int K_values ->
  (forall k, clock env1 k = clock env2 k) -> ops1.*1 = ops2.*1 ->
  run_and_print_all_transforms env1 data1 ops1 K_values num_cores p
  = run_and_print_all_transforms env2 data2 ops2 K_values num_cores p
  /\ is_Some (run_and_print_all_transforms env1 data1 ops1 K_values num_cores p).
Proof.
  intros H1 H2 HKs Hclock Hnames.
  rewrite !run_and_print_all_transforms_spec by done. split; [|by eexists].
  rewrite Hnames, (report_clock env1 env2) by done.
  do 3 f_equal. by rewrite <- (length_fmap fst ops1), Hnames, length_fmap.
Qed.

Lemma report_depends_on_the_clock_only_witness :
  run_and_print_all_transforms demo_env demo_data [("fast"%string, fast_op)] [1; 2] 8
    {| reads := 0; printed := [] |}
  = run_and_print_all_transforms
      {| clock := clock demo_env; scheduler := fun _ => [1; 1; 0]%nat |}
      [7; 8]%float [("fast"%string, fun x => (x * 2)%float)] [1; 2] 8
      {| reads := 0; printed := [] |}
  /\ is_Some (run_and_print_all_transforms demo_env demo_data [("fast"%string, fast_op)]
                [1; 2] 8 {| reads := 0; printed := [] |}).
Proof.
  apply (report_depends_on_the_clock_only demo_env
           {| clock := clock demo_env; scheduler := fun _ => [1; 1; 0]%nat |}
           demo_data [7; 8]%float [("fast"%string, fast_op)]
           [("fast"%string, fun x => (x * 2)%float)] [1; 2] 8 {| reads := 0; printed := [] |});
    [vm_compute; reflexivity | vm_compute; reflexivity | repeat constructor; by compute
    | reflexivity | reflexivity].
Defined.

(** ** The program *)

Section MainFacts.
Variable engine : Type.
Variable mt19937 : Z -> engine.
Variable uniform_real : double -> double -> engine -> double * engine.
Variable sin : double -> double.



End MainFacts.






(** ** Binary64: numbers that are not zero *)

Module Binary64Signs.

Lemma Zdigits2_pos_inv m : 0 <= m -> 0 < Zdigits2 m -> 0 < m.
Proof. destruct m; simpl; lia. Qed.

Lemma shr_fexp_above L m e l :
  SpecFloat.emin prec emax < L -> above L m e ->
  above L (shr_m (shr_fexp prec emax m e l).1) (shr_fexp prec emax m e l).2.
Proof.
  intros HL [Hm HD]. unfold shr_fexp, shr.
  assert (shr_m (shr_record_of_loc m l) = m) as Hrec by (by destruct l as [|[]]).
  destruct (fexp prec emax (Zdigits2 m + e) - e) as [|p|p] eqn:Hn; simpl;
    rewrite ?Hrec; try done.
  pose proof (Zdigits2_iter_shr_1 p (shr_record_of_loc m l) ltac:(rewrite Hrec; lia)) as Hd.
  rewrite Hrec in Hd. unfold fexp in Hn. pose proof (eq_refl : prec = 53).
  split.
  - apply Zdigits2_pos_inv; [apply iter_pos_shr_1_nonneg; rewrite Hrec; lia|]. lia.
  - lia.
Qed.

Lemma round_nearest_even_above L m e l :
  above L m e -> above L (round_nearest_even m l) e.
Proof.
  intros [Hm HD].
  assert (m <= round_nearest_even m l) as Hle.
  { destruct l as [|[]]; simpl; try lia. destruct (Z.even m); lia. }
  pose proof (Zdigits2_mono m (round_nearest_even m l) ltac:(lia)).
  split; lia.
Qed.

Lemma binary_round_aux_large L sx mx ex lx :
  SpecFloat.emin prec emax < L -> above L mx ex ->
  large_sf L sx (binary_round_aux prec emax sx mx ex lx).
Proof.
  intros HL H. unfold binary_round_aux.
  pose proof (shr_fexp_above L mx ex lx HL H) as H1.
  destruct (shr_fexp prec emax mx ex lx) as [mrs' e']. simpl in H1.
  apply (round_nearest_even_above _ _ _ (loc_of_shr_record mrs')) in H1.
  apply (shr_fexp_above L _ _ loc_Exact HL) in H1.
  destruct (shr_fexp prec emax _ e' loc_Exact) as [mrs'' e'']. simpl in H1.
  destruct H1 as [Hm HD].
  destruct (shr_m mrs'') as [|p|p]; simpl; [lia| |lia].
  by destruct (e'' <=? emax - prec).
Qed.

Lemma binary_normalize_large m :
  0 < m -> large_sf 1 false (binary_normalize prec emax m 0 false).
Proof.
  intros Hm. destruct m as [|p|p]; simpl; [lia| |lia].
  unfold binary_round, shl_align.
  destruct (fexp prec emax (Z.pos (digits2_pos p) + 0) - 0) as [|q|q] eqn:Hq;
    apply binary_round_aux_large; try done; split; simpl; try lia.
  rewrite digits2_pos_iter_xO. lia.
Qed.

Lemma large_sf_opp L sx x : large_sf L sx x -> large_sf L (negb sx) (SFopp x).
Proof. destruct x as [| | |s m e]; simpl; try done; [by intros ->|by intros [-> ?]]. Qed.

Lemma double_of_int64_large d :
  d <> 0 -> - 2 ^ 63 <= d < 2 ^ 63 ->
  large_sf 1 (d <? 0) (Prim2SF (double_of_int64 d)).
Proof.
  intros Hne Hd. unfold double_of_int64.
  destruct (Z.eqb_spec d (- 2 ^ 63)) as [->|Hmin]; [by vm_compute|].
  unfold double_of_int. destruct (Z.leb_spec 0 d) as [Hpos|Hneg].
  - rewrite (proj2 (Z.ltb_ge d 0)) by lia. rewrite of_uint63_spec.
    apply binary_normalize_large. rewrite Uint63.of_Z_spec.
    change Uint63.wB with (2 ^ 63). rewrite Z.mod_small; lia.
  - rewrite (proj2 (Z.ltb_lt d 0)) by lia. rewrite opp_spec, of_uint63_spec.
    apply (large_sf_opp 1 false), binary_normalize_large. rewrite Uint63.of_Z_spec.
    change Uint63.wB with (2 ^ 63). rewrite Z.mod_small; lia.
Qed.

Lemma double_of_int64_small d :
  - 2 ^ 63 <= d < 2 ^ 63 -> small_sf 64 (Prim2SF (double_of_int64 d)).
Proof.
  intros Hd. unfold double_of_int64.
  destruct (Z.eqb_spec d (- 2 ^ 63)) as [->|Hmin]; [by vm_compute|].
  apply double_of_int_small. lia.
Qed.

(** The mantissa of a binary64 number has at most 53 digits. *)
Lemma Prim2SF_digits x s m e :
  Prim2SF x = S754_finite s m e -> Zdigits2 (Z.pos m) <= 53.
Proof.
  intros Hx. pose proof (Prim2SF_valid x) as Hv. rewrite Hx in Hv.
  unfold SpecFloat.valid_binary, bounded, canonical_mantissa in Hv.
  apply andb_prop in Hv as [Hc%Z.eqb_eq _]. unfold fexp in Hc. simpl.
  pose proof (eq_refl : prec = 53). lia.
Qed.
End Binary64Signs.

Import Binary64Signs.

(** [1e9] as a binary64 number. *)
Lemma Prim2SF_1e9 : Prim2SF 1000000000 = S754_finite false 8388608000000000 (-23).
Proof. by vm_compute. Qed.

(** Dividing a number of magnitude in [1, 2^64) by [1e9] gives neither
    zero nor NaN, and keeps the sign. *)
Lemma SFdiv_1e9_large sx m1 e1 :
  Zdigits2 (Z.pos m1) <= 53 -> 1 <= Zdigits2 (Z.pos m1) + e1 <= 64 ->
  large_sf (-81) sx
    (SF64div (S754_finite sx m1 e1) (S754_finite false 8388608000000000 (-23))).
Proof.
  intros Hd1 HD. unfold SF64div, SFdiv, SFdiv_core_binary.
  change (Zdigits2 8388608000000000) with 53.
  set (d1 := Zdigits2 (Z.pos m1)) in *.
  assert (1 <= d1) as Hd1' by (unfold d1; simpl; lia).
  assert (fexp prec emax (d1 + e1 - (53 + -23)) = d1 + e1 - 83) as ->.
  { unfold fexp, SpecFloat.emin, emax, prec. lia. }
  rewrite Z.min_l by lia.
  replace (e1 - -23 - (d1 + e1 - 83)) with (106 - d1) by lia.
  destruct (106 - d1) as [|s|s] eqn:Hs; try lia.
  pose proof (Zdigits2_shiftl (Z.pos m1) (Z.pos s) ltac:(lia) ltac:(lia)) as Hdm.
  fold d1 in Hdm.
  set (m' := Z.shiftl (Z.pos m1) (Z.pos s)) in *.
  assert (2 ^ 105 <= m') as Hm'.
  { assert (0 < m') as Hpos.
    { unfold m'. rewrite Z.shiftl_mul_pow2 by lia.
      pose proof (Z.pow_pos_nonneg 2 (Z.pos s)); nia. }
    rewrite Zdigits2_log2 in Hdm by done.
    pose proof (Z.log2_spec m' Hpos) as [Hlo _].
    replace (Z.log2 m') with 105 in Hlo by lia. done. }
  pose proof (Z_div_mod m' 8388608000000000 ltac:(lia)) as Hdiv.
  destruct (Z.div_eucl m' 8388608000000000) as [q r]. destruct Hdiv as [Hq Hr].
  rewrite xorb_false_r.
  apply binary_round_aux_large; [unfold SpecFloat.emin, emax, prec; lia|].
  assert (1 <= q) as Hq1 by nia.
  pose proof (Zdigits2_mono 1 q ltac:(lia)) as Hdq. simpl in Hdq.
  split; lia.
Qed.

(** The sign of a measured time is the sign of the tick difference. *)
Lemma duration_seconds_finite a b :
  b <> a -> - 2 ^ 63 <= b - a < 2 ^ 63 ->
  exists m e, Prim2SF (duration_seconds a b) = S754_finite (b <? a) m e.
Proof.
  intros Hne Hfit.
  pose proof (duration_seconds_small a b) as Hsmall.
  unfold duration_seconds in *. rewrite div_spec, Prim2SF_1e9 in *.
  assert (sint64_wrap (b - a) = b - a) as Hw
    by (unfold sint64_wrap; rewrite Z.mod_small; lia).
  rewrite Hw in *.
  pose proof (double_of_int64_large (b - a) ltac:(lia) Hfit) as Hl.
  pose proof (double_of_int64_small (b - a) Hfit) as Hs.
  replace (b - a <? 0) with (b <? a) in Hl
    by (destruct (Z.ltb_spec b a), (Z.ltb_spec (b - a) 0); lia).
  destruct (Prim2SF (double_of_int64 (b - a))) as [s0|s0| |s0 m1 e1] eqn:Hx;
    cbn [large_sf small_sf] in Hl, Hs; try done.
  destruct Hl as [-> HL], Hs as [HS _].
  pose proof (SFdiv_1e9_large (b <? a) m1 e1 (Prim2SF_digits _ _ _ _ Hx) ltac:(lia)) as Hq.
  destruct (SF64div _ _) as [s1|s1| |s1 m e]; cbn [large_sf small_sf] in Hq, Hsmall; try done.
  destruct Hq as [-> _]. eauto.
Qed.

Lemma duration_seconds_negative a b :
  b < a -> - 2 ^ 63 <= b - a -> (duration_seconds a b <? 0)%float = true.
Proof.
  intros Hlt Hfit. destruct (duration_seconds_finite a b) as (m & e & Hx); [lia..|].
  rewrite FloatAxioms.ltb_spec, Hx, (proj2 (Z.ltb_lt b a) Hlt). done.
Qed.

Lemma duration_seconds_positive a b :
  a < b -> b - a < 2 ^ 63 -> (0 <? duration_seconds a b)%float = true.
Proof.
  intros Hlt Hfit. destruct (duration_seconds_finite a b) as (m & e & Hx); [lia..|].
  rewrite FloatAxioms.ltb_spec, Hx, (proj2 (Z.ltb_ge b a)) by lia. done.
Qed.

Lemma duration_seconds_zero a : duration_seconds a a = 0%float.
Proof. unfold duration_seconds. by rewrite Z.sub_diag. Qed.

(** ** Generator, workers and measurements *)

(** Extra X5. With the same seed and bounds, [generate_data] for a
    smaller size returns a prefix of what it returns for a larger size:
    the data sets of [main] are nested. *)
Theorem generate_data_prefix (engine : Type) (mt19937 : Z -> engine)
    (uniform_real : double -> double -> engine -> double * engine)
    (N M seed : Z) (a b : double) :
  N <= M ->
  generate_data engine mt19937 uniform_real N seed a b
  = take (Z.to_nat N) (generate_data engine mt19937 uniform_real M seed a b)
  /\ forall i x,
       generate_data engine mt19937 uniform_real N seed a b !! i = Some x ->
       generate_data engine mt19937 uniform_real M seed a b !! i = Some x.
Proof.
  intros HNM. rewrite !generate_data_draws.
  assert (draw engine mt19937 uniform_real a b seed <$> seq 0 (Z.to_nat N)
          = take (Z.to_nat N) (draw engine mt19937 uniform_real a b seed <$> seq 0 (Z.to_nat M)))
    as Heq.
  { rewrite <- fmap_take, take_seq. do 2 f_equal. lia. }
  split; [done|]. intros i x. rewrite Heq. intros H.
  by apply lookup_take_Some in H as [H _].
Qed.

Lemma generate_data_prefix_witness :
  generate_data Z counter_seed counter_draw 2 42 0%float 1%float
  = take (Z.to_nat 2) (generate_data Z counter_seed counter_draw 5 42 0%float 1%float)
  /\ forall i x,
       generate_data Z counter_seed counter_draw 2 42 0%float 1%float !! i = Some x ->
       generate_data Z counter_seed counter_draw 5 42 0%float 1%float !! i = Some x.
Proof.
  apply (generate_data_prefix Z counter_seed counter_draw 2 5 42 0%float 1%float). lia.
Defined.

(** Extra X6. The worker threads of the custom strategy, one per thread
    count after clamping, together access every element of the vector
    exactly once, each access reading and writing the same offset inside
    the vector. *)
Theorem workers_touch_each_element_once (data : list double) (K : Z) :
  vector_size_ok data -> is_int K ->
  exists work,
    mapM task_accesses (spawn_threads (vec_size data) (clamp_threads K)) = Some work
    /\ length work = Z.to_nat (clamp_threads K)
    /\ (forall a, a ∈ concat work -> a.1 = a.2 /\ (a.1 < length data)%nat)
    /\ NoDup (concat work)
    /\ (forall j, (j < length data)%nat -> (j, j) ∈ concat work).
Proof.
  intros Hsize HK%clamp_threads_range.
  assert (0 <= vec_size data < SIZE_MODULUS) as HN
    by (unfold vector_size_ok, vec_size in *; lia).
  destruct (spawn_threads_work _ _ HN HK) as (work & Hwork & Hcat).
  exists work. split; [done|].
  unfold vec_size in Hcat. rewrite Nat2Z.id in Hcat.
  split_and!.
  - apply mapM_Some_1, Forall2_length in Hwork. rewrite <- Hwork.
    by rewrite spawn_threads_closed, length_fmap, length_seqZ.
  - rewrite Hcat. intros a (j & -> & Hj%elem_of_seq)%list_elem_of_fmap. simpl. lia.
  - rewrite Hcat. apply NoDup_fmap_2; [|apply NoDup_seq]. by intros i j [= ->].
  - intros j Hj. rewrite Hcat. apply list_elem_of_fmap. exists j. split; [done|].
    apply elem_of_seq. lia.
Qed.

Lemma workers_touch_each_element_once_witness :
  exists work,
    mapM task_accesses (spawn_threads (vec_size demo_data) (clamp_threads 3)) = Some work
    /\ length work = Z.to_nat (clamp_threads 3)
    /\ (forall a, a ∈ concat work -> a.1 = a.2 /\ (a.1 < length demo_data)%nat)
    /\ NoDup (concat work)
    /\ (forall j, (j < length demo_data)%nat -> (j, j) ∈ concat work).
Proof.
  apply (workers_touch_each_element_once demo_data 3); [vm_compute; reflexivity | by compute].
Defined.

(** Extra X7. Worker [i] of the custom strategy has an empty chunk exactly
    when [i] is at least the size of the vector; with more threads than
    elements, worker [i] handles element [i] alone and the others start
    and end at the end of the vector. *)
Theorem worker_is_idle_iff (N K : Z) (i : nat) (t : task) :
  0 <= N < SIZE_MODULUS -> 1 <= K <= INT_MAX ->
  spawn_threads N K !! i = Some t ->
  (chunk_len t = 0 <-> N <= Z.of_nat i)
  /\ (N < K -> chunk_begin t = Z.min (Z.of_nat i) N
              /\ chunk_len t = if Z.of_nat i <? N then 1 else 0).
Proof.
  intros HN HK [-> Hi]%spawn_threads_lookup; [|done..].
  unfold chunk_len, chunk. cbn [chunk_begin chunk_end].
  rewrite chunk_start_succ by lia.
  destruct (Z.lt_ge_cases N K) as [Hlt|Hge].
  - unfold chunk_start. rewrite Z.div_small, Z.mod_small by lia.
    destruct (Z.ltb_spec (Z.of_nat i) N); split; (lia || (intros _; split; lia)).
  - pose proof (Z.div_str_pos N K ltac:(lia)).
    split; [|lia]. destruct (Z.of_nat i <? N mod K); lia.
Qed.

Lemma worker_is_idle_iff_witness :
  (chunk_len {| chunk_begin := 2; chunk_end := 2 |} = 0 <-> 2 <= Z.of_nat 3)
  /\ (2 < 4 -> chunk_begin {| chunk_begin := 2; chunk_end := 2 |} = Z.min (Z.of_nat 3) 2
              /\ chunk_len {| chunk_begin := 2; chunk_end := 2 |}
                 = if Z.of_nat 3 <? 2 then 1 else 0).
Proof.
  apply (worker_is_idle_iff 2 4 3 {| chunk_begin := 2; chunk_end := 2 |});
    [unfold SIZE_MODULUS; lia | unfold INT_MAX; lia | reflexivity].
Defined.

(** Extra X8. Every strategy returns after exactly two clock readings and
    prints nothing; its time is computed from those two readings, and it
    creates [max K 1] threads when it is the custom strategy with [K]
    and none of its own otherwise. *)
Theorem measurement_reads_the_clock_twice env st data op w :
  vector_size_ok data -> int_strategy st ->
  exists m w',
    measure env st data op w = Some (m, w')
    /\ clock_reads w' = (clock_reads w + 2)%nat
    /\ stdout w' = stdout w
    /\ seconds m = duration_seconds (clock env (clock_reads w)) (clock env (clock_reads w + 1))
    /\ length (workers m) = match st with
                            | custom_parallel K => Z.to_nat (Z.max K 1)
                            | _ => 0%nat
                            end.
Proof.
  intros Hsize Hst.
  assert (forall m, seconds m = measured env w ->
            seconds m = duration_seconds (clock env (clock_reads w))
                                         (clock env (clock_reads w + 1))) as Hsec.
  { intros m ->. unfold measured. by rewrite Nat.add_1_r. }
  destruct st as [|pol|K]; simpl in *.
  - rewrite measure_transform_spec. eexists _, _. split; [done|].
    split_and!; [simpl; lia|done|by apply Hsec|done].
  - rewrite measure_policy_transform_spec. eexists _, _. split; [done|].
    split_and!; [simpl; lia|done|by apply Hsec|done].
  - rewrite measure_custom_parallel_transform_spec by done. eexists _, _. split; [done|].
    split_and!; [simpl; lia|done|by apply Hsec|].
    cbn [workers]. pose proof (clamp_threads_range K Hst) as HK.
    rewrite spawn_threads_closed, length_fmap, length_seqZ;
      [|unfold vector_size_ok, vec_size in *; lia|done].
    unfold clamp_threads. destruct (Z.leb_spec K 0); f_equal; lia.
Qed.

Lemma measurement_reads_the_clock_twice_witness :
  exists m w',
    measure demo_env (custom_parallel 3) demo_data fast_op demo_world = Some (m, w')
    /\ clock_reads w' = (clock_reads demo_world + 2)%nat
    /\ stdout w' = stdout demo_world
    /\ seconds m = duration_seconds (clock demo_env (clock_reads demo_world))
                                    (clock demo_env (clock_reads demo_world + 1))
    /\ length (workers m) = Z.to_nat (Z.max 3 1).
Proof.
  apply (measurement_reads_the_clock_twice demo_env (custom_parallel 3) demo_data fast_op
           demo_world); [vm_compute; reflexivity | by compute].
Defined.

(** A time is above the least finite [double]. *)
Lemma duration_seconds_gt_neg_DBL_MAX a b :
  (- DBL_MAX <? duration_seconds a b)%float = true.
Proof.
  rewrite FloatAxioms.ltb_spec. pose proof (duration_seconds_small a b) as H.
  assert (Prim2SF (- DBL_MAX) = S754_finite true 9007199254740991 971) as -> by (by vm_compute).
  destruct (Prim2SF (duration_seconds a b)) as [sx|sx| |[] m e]; simpl in *; try done.
  destruct H as [_ H]. unfold SFltb, SFcompare.
  by rewrite (proj2 (Z.compare_gt_iff 971 e)) by lia.
Qed.

(** Extra X9. Whatever the two clock readings, the time that a strategy
    returns is a finite [double]: not a NaN, strictly below [DBL_MAX]
    and strictly above [- DBL_MAX]. *)
Theorem measured_time_is_finite env st data op w :
  vector_size_ok data -> int_strategy st ->
  exists m w',
    measure env st data op w = Some (m, w')
    /\ (- DBL_MAX <? seconds m)%float = true
    /\ (seconds m <? DBL_MAX)%float = true
    /\ is_nan (seconds m) = false.
Proof.
  intros Hsize Hst.
  destruct (measure_spec env st data op w Hsize Hst) as (m & E & T & _).
  exists m, (after_measurement w). rewrite T. unfold measured.
  split_and!; [done|apply duration_seconds_gt_neg_DBL_MAX|apply duration_seconds_lt_DBL_MAX|].
  pose proof (duration_seconds_number (clock env (clock_reads w))
                (clock env (Datatypes.S (clock_reads w)))) as Hn.
  unfold number, sf_number, Prim2SF in Hn. by destruct (is_nan _).
Qed.

Lemma measured_time_is_finite_witness :
  exists m w',
    measure clock_set_back (with_policy par_policy) demo_data fast_op demo_world = Some (m, w')
    /\ (- DBL_MAX <? seconds m)%float = true
    /\ (seconds m <? DBL_MAX)%float = true
    /\ is_nan (seconds m) = false.
Proof.
  apply (measured_time_is_finite clock_set_back (with_policy par_policy) demo_data fast_op
           demo_world); [vm_compute; reflexivity | exact I].
Defined.

(** Extra X10. When the difference of the two clock readings fits the
    64-bit tick count, the time of every strategy has its sign: strictly
    positive when the clock advanced, zero when it stood still, strictly
    negative when it was set back. No nonzero tick count rounds to a
    zero time. *)
Theorem time_has_the_sign_of_the_clock_step env st data op w :
  vector_size_ok data -> int_strategy st ->
  - 2 ^ 63 <= clock env (Datatypes.S (clock_reads w)) - clock env (clock_reads w) < 2 ^ 63 ->
  exists m w',
    measure env st data op w = Some (m, w')
    /\ (clock env (clock_reads w) < clock env (Datatypes.S (clock_reads w)) ->
        (0 <? seconds m)%float = true)
    /\ (clock env (clock_reads w) = clock env (Datatypes.S (clock_reads w)) ->
        seconds m = 0%float)
    /\ (clock env (Datatypes.S (clock_reads w)) < clock env (clock_reads w) ->
        (seconds m <? 0)%float = true).
Proof.
  intros Hsize Hst Hfit.
  destruct (measure_spec env st data op w Hsize Hst) as (m & E & T & _).
  exists m, (after_measurement w). rewrite T. unfold measured.
  split_and!; [done| | |].
  - intros H. apply duration_seconds_positive; lia.
  - intros ->. apply duration_seconds_zero.
  - intros H. apply duration_seconds_negative; lia.
Qed.

Lemma time_has_the_sign_of_the_clock_step_witness :
  exists m w',
    measure clock_set_back no_policy demo_data fast_op demo_world = Some (m, w')
    /\ (clock clock_set_back (clock_reads demo_world)
        < clock clock_set_back (Datatypes.S (clock_reads demo_world)) ->
        (0 <? seconds m)%float = true)
    /\ (clock clock_set_back (clock_reads demo_world)
        = clock clock_set_back (Datatypes.S (clock_reads demo_world)) ->
        seconds m = 0%float)
    /\ (clock clock_set_back (Datatypes.S (clock_reads demo_world))
        < clock clock_set_back (clock_reads demo_world) ->
        (seconds m <? 0)%float = true).
Proof.
  apply (time_has_the_sign_of_the_clock_step clock_set_back no_policy demo_data fast_op
           demo_world); [vm_compute; reflexivity | exact I | by vm_compute].
Defined.

(** Extra X11. When the number of processor threads is reported as 0, the
    quotient of the relation line is not a number of threads per core:
    it is [+infinity] for a positive best thread count, NaN for 0 and
    [-infinity] for a negative one. *)
Theorem relation_to_zero_processor_threads (best_K : Z) :
  is_int best_K ->
  relation_to_processor_threads best_K 0
  = if 0 <? best_K then infinity
    else if best_K =? 0 then nan
    else neg_infinity.
Proof.
  intros HK. unfold is_int, INT_MIN, INT_MAX in HK. unfold relation_to_processor_threads.
  destruct (Z.ltb_spec 0 best_K) as [Hpos|Hle];
    [|destruct (Z.eqb_spec best_K 0) as [->|Hne]; [by vm_compute|]].
  all: apply Prim2SF_inj; rewrite div_spec.
  all: pose proof (double_of_int64_large best_K ltac:(lia) ltac:(lia)) as Hl.
  all: pose proof (double_of_int64_small best_K ltac:(lia)) as Hs.
  all: unfold double_of_int64 in Hl, Hs;
    rewrite (proj2 (Z.eqb_neq best_K (- 2 ^ 63))) in Hl, Hs by lia.
  all: change (Prim2SF (double_of_int 0)) with (S754_zero false).
  all: destruct (Prim2SF (double_of_int best_K)) as [s0|s0| |s0 m e];
    cbn [large_sf small_sf] in Hl, Hs; try done.
  all: destruct Hl as [-> _]; simpl.
  - by rewrite (proj2 (Z.ltb_ge best_K 0)) by lia.
  - by rewrite (proj2 (Z.ltb_lt best_K 0)) by lia.
Qed.

Lemma relation_to_zero_processor_threads_witness :
  relation_to_processor_threads 4 0
  = if 0 <? 4 then infinity else if 4 =? 0 then nan else neg_infinity.
Proof. apply (relation_to_zero_processor_threads 4). by compute. Defined.
